(** * go-user-api: the age calculation and the user service

    A shallow embedding of [internal/models/user.go],
    [internal/service/service.go], the repository interface, the SQL
    queries of [db/queries/users.sql] and the handlers of
    [internal/handler/user_handler.go] that take no request body, together
    with the properties the design document states about them and further
    properties of the code.

    Conventions.
    - Go's [int] is the 64-bit two's complement integer of the platforms
      the server is built for; it is a [Z] with the wrap-around written
      out ([int_wrap]).  [int32] is the conversion to 32 bits.
    - A [time.Time] is seen through its accessors [Year()], [Month()],
      [Day()], which are the only ones the code calls, plus the time of
      day.
    - The process clock ([time.Now]) and the database are the state the
      code runs in: both live in [World], threaded by the [IO] monad.
    - Logging ([zap]) has no influence on any result and is left out. *)

From Stdlib Require Import ZArith Lia Bool String Ascii DecimalString.
From stdpp Require Import base option list gmap strings sorting.

Open Scope Z_scope.

(** ** Machine integers *)

Definition int_wrap (z : Z) : Z := (z + 2 ^ 63) mod 2 ^ 64 - 2 ^ 63.

Definition int_sub (a b : Z) : Z := int_wrap (a - b).
Definition int_mul (a b : Z) : Z := int_wrap (a * b).

(** The conversion [int32(x)] keeps the low 32 bits. *)
Definition int32 (z : Z) : Z := (z + 2 ^ 31) mod 2 ^ 32 - 2 ^ 31.

Definition in_int (z : Z) : Prop := - 2 ^ 63 <= z <= 2 ^ 63 - 1.
Definition in_int32 (z : Z) : Prop := - 2 ^ 31 <= z <= 2 ^ 31 - 1.

(** ** Results and errors *)

Inductive error : Type :=
| ErrNoRows                     (* sql.ErrNoRows *)
| errorString (s : string)      (* errors.New(s) *)
| ParseError (msg : string)     (* *time.ParseError *)
| PgError (msg : string).       (* an error reported by the server *)

Inductive result (A : Type) : Type :=
| Ok (a : A)
| Err (e : error).
Arguments Ok {A} a.
Arguments Err {A} e.

#[global] Instance error_eq_dec : EqDecision error.
Proof. solve_decision. Defined.

(** ** Package time *)

Module time.

(** What the code observes of a [time.Time]. [DayNanos] is the time of
    day in nanoseconds since midnight. *)
Record Time : Type := mkTime {
  Year : Z;
  Month : Z;
  Day : Z;
  DayNanos : Z
}.

#[global] Instance Time_eq_dec : EqDecision Time.
Proof. solve_decision. Defined.

Definition January : Z := 1.
Definition February : Z := 2.
Definition March : Z := 3.
Definition December : Z := 12.

(** Go's [%] truncates towards zero: it is [Z.rem]. *)
Definition isLeap (year : Z) : bool :=
  (Z.rem year 4 =? 0) && (negb (Z.rem year 100 =? 0) || (Z.rem year 400 =? 0)).

(** [daysIn]: February apart, the lengths follow
    31 30 31 30 31 30 31 31 30 31 30 31, that is [30 + (m + m>>3)&1]. *)
Definition daysIn (m : Z) (year : Z) : Z :=
  if m =? February then
    if isLeap year then 29 else 28
  else 30 + Z.land (m + Z.shiftr m 3) 1.

(** Every [time.Time] counts seconds in an [int64], so its year lies
    within these bounds (the largest is that of [time.Unix(1<<63-1, 0)]). *)
Definition maxYear : Z := 292277026596.

(** A calendar date as a [time.Time] holds it. *)
Definition valid_date (y m d : Z) : Prop :=
  - maxYear <= y <= maxYear /\ 1 <= m <= 12 /\ 1 <= d <= daysIn m y.

Definition valid_dateb (y m d : Z) : bool :=
  (- maxYear <=? y) && (y <=? maxYear) && (1 <=? m) && (m <=? 12)
  && (1 <=? d) && (d <=? daysIn m y).

Definition WellFormed (t : Time) : Prop :=
  valid_date (Year t) (Month t) (Day t) /\ 0 <= DayNanos t < 86400 * 10 ^ 9.

(** [norm] of package time, for a positive base: [lo] is brought into
    [0, base) and the carry goes to [hi]. *)
Definition norm (hi lo base : Z) : Z * Z := (hi + lo / base, lo mod base).

(** The day carry of [time.Date]: a day past the end of its month moves
    into the following months, a day before the first into the preceding
    ones ("October 32 converts to November 1"). Each step moves [d] by a
    whole month towards the month it falls in. *)
Fixpoint carry_days (fuel : nat) (y m d : Z) : Z * Z * Z :=
  match fuel with
  | O => (y, m, d)
  | S fuel' =>
      if d <? 1 then
        let '(y', m') := if m =? January then (y - 1, December) else (y, m - 1) in
        carry_days fuel' y' m' (d + daysIn m' y')
      else if daysIn m y <? d then
        let '(y', m') := if m =? December then (y + 1, January) else (y, m + 1) in
        carry_days fuel' y' m' (d - daysIn m y)
      else (y, m, d)
  end.

(** [time.Date(year, month, day, 0, 0, 0, 0, time.UTC)]: the month is
    normalised into the year, then the day into the months. *)
Definition Date (year month day : Z) : Time :=
  let '(year, m) := norm year (month - 1) 12 in
  let '(y, m, d) := carry_days (Z.to_nat (Z.abs day) + 1) year (m + 1) day in
  mkTime y m d 0.

(** *** Parsing and formatting with the layout ["2006-01-02"]

    The code parses and formats with this one layout; [ParseDate value]
    is [time.Parse("2006-01-02", value)] and [FormatDate t] is
    [t.Format("2006-01-02")]. *)

Definition isDigit (c : ascii) : bool :=
  let n := Z.of_N (N_of_ascii c) in (48 <=? n) && (n <=? 57).

Definition digit (c : ascii) : Z := Z.of_N (N_of_ascii c) - 48.

(** [getnum s fixed]: one or two digits, exactly two when [fixed]. *)
Definition getnum (s : string) (fixed : bool) : option (Z * string) :=
  match s with
  | String c0 rest =>
      if isDigit c0 then
        match rest with
        | String c1 rest' =>
            if isDigit c1 then Some (digit c0 * 10 + digit c1, rest')
            else if fixed then None else Some (digit c0, rest)
        | EmptyString => if fixed then None else Some (digit c0, rest)
        end
      else None
  | EmptyString => None
  end.

(** The element [2006]: the next four characters, read by [atoi]; the
    first must be a digit, so no sign is accepted. *)
Definition getyear (s : string) : option (Z * string) :=
  match s with
  | String a (String b (String c (String d rest))) =>
      if isDigit a && isDigit b && isDigit c && isDigit d
      then Some (((digit a * 10 + digit b) * 10 + digit c) * 10 + digit d, rest)
      else None
  | _ => None
  end.

(** The literal [-] between two elements. *)
Definition skip_dash (s : string) : option string :=
  match s with
  | String c rest => if Ascii.eqb c "-" then Some rest else None
  | EmptyString => None
  end.

Definition errBad : error := ParseError "cannot parse".

Definition ParseDate (value : string) : result Time :=
  match getyear value with
  | None => Err errBad
  | Some (year, value) =>
  match skip_dash value with
  | None => Err errBad
  | Some value =>
  match getnum value true with
  | None => Err errBad
  | Some (month, value) =>
  if (month <=? 0) || (12 <? month) then Err (ParseError "month out of range") else
  match skip_dash value with
  | None => Err errBad
  | Some value =>
  match getnum value true with
  | None => Err errBad
  | Some (day, value) =>
  if negb (String.length value =? 0)%nat then Err (ParseError "extra text") else
  (* Validate the day of the month. *)
  if (day <? 1) || (daysIn month year <? day) then Err (ParseError "day out of range")
  else Ok (Date year month day)
  end end end end end.

Fixpoint zeros (n : nat) : string :=
  match n with
  | O => EmptyString
  | S n' => String "0" (zeros n')
  end.

(** [appendInt]: the decimal form of [x], with a sign when negative,
    padded with zeros to [width] digits. *)
Definition appendInt (x : Z) (width : Z) : string :=
  let u := Z.abs x in
  let ds := NilZero.string_of_uint (N.to_uint (Z.to_N u)) in
  let pad := width - Z.of_nat (String.length ds) in
  ((if (x <? 0)%Z then "-" else "") ++ zeros (Z.to_nat pad) ++ ds)%string.

Definition FormatDate (t : Time) : string :=
  (appendInt (Year t) 4 ++ "-" ++ appendInt (Month t) 2 ++ "-" ++ appendInt (Day t) 2)%string.

End time.

Import time.

(** ** The database: table [users] and the queries of [db/queries/users.sql] *)

Module sqlc.

(** A row of [users], as every query returns it:
    [id, name, dob, created_at, updated_at]. *)
Record User : Type := mkUser {
  ID : Z;
  Name : string;
  Dob : Time;
  CreatedAt : Time;
  UpdatedAt : Time
}.

Record CreateUserParams : Type := { cp_Name : string; cp_Dob : Time }.
Record ListUsersParams : Type := { lp_Limit : Z; lp_Offset : Z }.
Record UpdateUserParams : Type := { up_Name : string; up_Dob : Time; up_ID : Z }.

(** The statements the server receives, with their arguments. *)
Inductive Statement : Type :=
| StCreateUser (name : string) (dob : Time)
| StGetUserByID (id : Z)
| StListUsers (limit offset : Z)
| StUpdateUser (name : string) (dob : Time) (id : Z)
| StDeleteUser (id : Z)
| StCountUsers.

(** What the model does not compute of the server and of the connection
    to it.
    - [encoding_ok s]: the bytes of [s] are a valid text of the encoding the
      database was created with ([createdb] takes it from the cluster).
    - [index_fits s]: an entry for [s] fits the limit of the index
      [idx_users_name] on [users(name)].
    - [exec_error n]: the error [ExecContext] returns for the statement
      sent when [n] statements have been sent before, if it returns one (a
      lost connection, a cancelled context, an error of the server). *)
Record Server : Type := mkServer {
  encoding_ok : string -> bool;
  index_fits : string -> bool;
  exec_error : nat -> option error
}.

(** The server: the table keyed by its primary key, the sequence behind
    [id SERIAL], the server's clock ([CURRENT_TIMESTAMP]), the statements
    received so far, oldest first, and the part that is given. *)
Record DB : Type := mkDB {
  users : gmap Z User;
  users_id_seq : Z;
  current_timestamp : Time;
  received : list Statement;
  server : Server
}.

Definition receive (st : Statement) (d : DB) : DB :=
  mkDB (users d) (users_id_seq d) (current_timestamp d) (received d ++ [st]) (server d).

(** A [TEXT] value cannot hold the byte 0, in any encoding. *)
Fixpoint no_NUL (s : string) : bool :=
  match s with
  | EmptyString => true
  | String c s' => negb (Ascii.eqb c zero) && no_NUL s'
  end.

(** A [TEXT] parameter the server accepts when the statement is bound: no
    byte 0, and valid in the encoding of the database. *)
Definition text_ok (d : DB) (s : string) : bool :=
  no_NUL s && encoding_ok (server d) s.

(** A name the server can store in [users]: it is accepted as a
    parameter, and its index entry fits. *)
Definition name_ok (d : DB) (s : string) : bool :=
  text_ok d s && index_fits (server d) s.

(** The error of the statement that is sent next, if [ExecContext] is to
    return one. *)
Definition next_exec_error (d : DB) : option error :=
  exec_error (server d) (length (received d)).

(** A [DATE] column keeps the calendar date only. *)
Definition to_DATE (t : Time) : Time := mkTime (Year t) (Month t) (Day t) 0.

Definition by_id (u v : User) : Prop := ID u <= ID v.

#[global] Instance by_id_dec : RelDecision by_id.
Proof. intros u v. unfold by_id. apply _. Defined.

(** The rows in the order of [ORDER BY id]. *)
Definition rows (d : DB) : list User :=
  merge_sort by_id (map snd (map_to_list (users d))).


(** [-- name: CreateUser :one]. A name that is no text of the database is
    refused when the statement is bound, before anything is done. The
    sequence advances even when the insertion fails: on a duplicate key,
    and on a name whose entry does not fit the index on [name]. *)
Definition CreateUser (arg : CreateUserParams) (d : DB) : result User * DB :=
  let d := receive (StCreateUser (cp_Name arg) (cp_Dob arg)) d in
  if negb (text_ok d (cp_Name arg)) then
    (Err (PgError "invalid byte sequence for encoding"), d)
  else
    let id := users_id_seq d + 1 in
    if 2 ^ 31 - 1 <? id then
      (Err (PgError "nextval: reached maximum value of sequence"), d)
    else
      let d := mkDB (users d) id (current_timestamp d) (received d) (server d) in
      match users d !! id with
      | Some _ =>
          (Err (PgError "duplicate key value violates unique constraint"), d)
      | None =>
          if negb (index_fits (server d) (cp_Name arg)) then
            (Err (PgError "index row size exceeds btree maximum"), d)
          else
            let u := mkUser id (cp_Name arg) (to_DATE (cp_Dob arg))
                       (current_timestamp d) (current_timestamp d) in
            (Ok u, mkDB (<[id := u]> (users d)) id (current_timestamp d) (received d)
                     (server d))
      end.

(** [-- name: GetUserByID :one]. *)
Definition GetUserByID (id : Z) (d : DB) : result User * DB :=
  let d := receive (StGetUserByID id) d in
  match users d !! id with
  | Some u => (Ok u, d)
  | None => (Err ErrNoRows, d)
  end.

(** [-- name: ListUsers :many]. *)
Definition ListUsers (arg : ListUsersParams) (d : DB) : result (list User) * DB :=
  let d := receive (StListUsers (lp_Limit arg) (lp_Offset arg)) d in
  if lp_Offset arg <? 0 then (Err (PgError "OFFSET must not be negative"), d)
  else if lp_Limit arg <? 0 then (Err (PgError "LIMIT must not be negative"), d)
  else (Ok (take (Z.to_nat (lp_Limit arg)) (drop (Z.to_nat (lp_Offset arg)) (rows d))), d).

(** [-- name: UpdateUser :one]. A name that is no text of the database is
    refused when the statement is bound, whether a row has the id or not;
    a name whose entry does not fit the index on [name] is refused when
    the row is written. *)
Definition UpdateUser (arg : UpdateUserParams) (d : DB) : result User * DB :=
  let d := receive (StUpdateUser (up_Name arg) (up_Dob arg) (up_ID arg)) d in
  if negb (text_ok d (up_Name arg)) then
    (Err (PgError "invalid byte sequence for encoding"), d)
  else
    match users d !! up_ID arg with
    | Some u =>
        if negb (index_fits (server d) (up_Name arg)) then
          (Err (PgError "index row size exceeds btree maximum"), d)
        else
          let u' := mkUser (up_ID arg) (up_Name arg) (to_DATE (up_Dob arg))
                      (CreatedAt u) (current_timestamp d) in
          (Ok u', mkDB (<[up_ID arg := u']> (users d)) (users_id_seq d)
                    (current_timestamp d) (received d) (server d))
    | None => (Err ErrNoRows, d)
    end.

(** [-- name: DeleteUser :exec]. The result is the error of [ExecContext]
    alone: a statement that fails deletes nothing, and one that is executed
    reports no error, whether it deleted a row or none. *)
Definition DeleteUser (id : Z) (d : DB) : option error * DB :=
  let failure := next_exec_error d in
  let d := receive (StDeleteUser id) d in
  match failure with
  | Some err => (Some err, d)
  | None =>
      (None, mkDB (delete id (users d)) (users_id_seq d) (current_timestamp d)
               (received d) (server d))
  end.

(** [-- name: CountUsers :one]. *)
Definition CountUsers (d : DB) : result Z * DB :=
  let d := receive StCountUsers d in
  (Ok (Z.of_nat (size (users d))), d).

End sqlc.

(** ** The state the code runs in *)

(** [clock n] is what the [n]-th reading of the process clock returns and
    [reads] counts the readings made so far. *)
Record World : Type := mkWorld {
  clock : nat -> Time;
  reads : nat;
  db : sqlc.DB
}.

Definition IO (A : Type) : Type := World -> A * World.

Definition ret {A : Type} (a : A) : IO A := fun w => (a, w).

Definition bind {A B : Type} (m : IO A) (k : A -> IO B) : IO B :=
  fun w => let (a, w') := m w in k a w'.

Notation "x <- m ;; k" := (bind m (fun x => k))
  (at level 100, m at next level, right associativity).

(** Sequencing that stops at the first error, as
    [if err != nil { return nil, err }] does. *)
Definition bindR {A B : Type} (m : IO (result A)) (k : A -> IO (result B))
  : IO (result B) :=
  r <- m ;;
  match r with
  | Ok a => k a
  | Err e => ret (Err e)
  end.

Definition with_db {A : Type} (f : sqlc.DB -> A * sqlc.DB) : IO A :=
  fun w => let (a, d) := f (db w) in (a, mkWorld (clock w) (reads w) d).

(** [time.Now()]: the next reading of the clock. *)
Definition time_Now : IO Time :=
  fun w => (clock w (reads w), mkWorld (clock w) (S (reads w)) (db w)).

Definition eval {A : Type} (m : IO A) (w : World) : A := fst (m w).
Definition exec {A : Type} (m : IO A) (w : World) : World := snd (m w).

(** ** Package models *)

Module models.

Record CreateUserRequest : Type := {
  creq_Name : string;
  creq_DOB : string
}.

Record UpdateUserRequest : Type := {
  ureq_Name : string;
  ureq_DOB : string
}.

(** [Age] is a [*int] with [omitempty]: [None] is the nil pointer. *)
Record UserResponse : Type := mkUserResponse {
  ID : Z;
  Name : string;
  DOB : string;
  Age : option Z
}.

(** CalculateAge calculates age from date of birth *)
Definition CalculateAge (dob : Time) : IO Z :=
  now <- time_Now ;;
  let age := int_sub (Year now) (Year dob) in
  (* Adjust if birthday hasn't occurred this year *)
  let age :=
    if (Month now <? Month dob)
       || ((Month now =? Month dob) && (Day now <? Day dob))
    then int_sub age 1
    else age in
  ret age.

End models.

(** ** Package repository *)

Module repository.

(** The interface [UserRepository]. *)
Record UserRepository : Type := {
  CreateUser : string -> Time -> IO (result sqlc.User);
  GetUserByID : Z -> IO (result sqlc.User);
  ListUsers : Z -> Z -> IO (result (list sqlc.User));
  UpdateUser : Z -> string -> Time -> IO (result sqlc.User);
  DeleteUser : Z -> IO (option error);
  CountUsers : IO (result Z)
}.

(** [userRepository]: every method hands its arguments to the query of
    the same name. *)
Definition NewUserRepository : UserRepository := {|
  CreateUser name dob :=
    with_db (sqlc.CreateUser {| sqlc.cp_Name := name; sqlc.cp_Dob := dob |});
  GetUserByID id := with_db (sqlc.GetUserByID id);
  ListUsers limit offset :=
    with_db (sqlc.ListUsers {| sqlc.lp_Limit := limit; sqlc.lp_Offset := offset |});
  UpdateUser id name dob :=
    with_db (sqlc.UpdateUser
               {| sqlc.up_Name := name; sqlc.up_Dob := dob; sqlc.up_ID := id |});
  DeleteUser id := with_db (sqlc.DeleteUser id);
  CountUsers := with_db sqlc.CountUsers
|}.

End repository.

(** ** Package service *)

Module service.

Record userService : Type := { repo : repository.UserRepository }.

Definition NewUserService (repo : repository.UserRepository) : userService :=
  {| repo := repo |}.

Definition invalid_date_format : error :=
  errorString "invalid date format, use YYYY-MM-DD".

Definition user_not_found : error := errorString "user not found".

Definition CreateUser (s : userService) (req : models.CreateUserRequest)
  : IO (result models.UserResponse) :=
  match time.ParseDate (models.creq_DOB req) with
  | Err _ => ret (Err invalid_date_format)
  | Ok dob =>
      r <- repository.CreateUser (repo s) (models.creq_Name req) dob ;;
      match r with
      | Err err => ret (Err err)
      | Ok user =>
          ret (Ok {| models.ID := sqlc.ID user;
                     models.Name := sqlc.Name user;
                     models.DOB := time.FormatDate (sqlc.Dob user);
                     models.Age := None |})
      end
  end.

Definition GetUserByID (s : userService) (id : Z)
  : IO (result models.UserResponse) :=
  r <- repository.GetUserByID (repo s) id ;;
  match r with
  | Err err =>
      if decide (err = ErrNoRows) then ret (Err user_not_found)
      else ret (Err err)
  | Ok user =>
      age <- models.CalculateAge (sqlc.Dob user) ;;
      ret (Ok {| models.ID := sqlc.ID user;
                 models.Name := sqlc.Name user;
                 models.DOB := time.FormatDate (sqlc.Dob user);
                 models.Age := Some age |})
  end.

(** The loop of [ListUsers]: one response is appended per row, its age
    computed as the row is visited. *)
Fixpoint responses_of (users : list sqlc.User) (responses : list models.UserResponse)
  : IO (list models.UserResponse) :=
  match users with
  | [] => ret responses
  | user :: users' =>
      age <- models.CalculateAge (sqlc.Dob user) ;;
      responses_of users'
        (responses ++ [ {| models.ID := sqlc.ID user;
                           models.Name := sqlc.Name user;
                           models.DOB := time.FormatDate (sqlc.Dob user);
                           models.Age := Some age |} ])
  end.

Definition ListUsers (s : userService) (page pageSize : Z)
  : IO (result (list models.UserResponse * Z)) :=
  let page := if page <? 1 then 1 else page in
  let pageSize := if (pageSize <? 1) || (100 <? pageSize) then 10 else pageSize in
  let offset := int_mul (int_sub page 1) pageSize in
  r <- repository.ListUsers (repo s) (int32 pageSize) (int32 offset) ;;
  match r with
  | Err err => ret (Err err)
  | Ok users =>
      r <- repository.CountUsers (repo s) ;;
      match r with
      | Err err => ret (Err err)
      | Ok total =>
          responses <- responses_of users [] ;;
          ret (Ok (responses, total))
      end
  end.

Definition UpdateUser (s : userService) (id : Z) (req : models.UpdateUserRequest)
  : IO (result models.UserResponse) :=
  match time.ParseDate (models.ureq_DOB req) with
  | Err _ => ret (Err invalid_date_format)
  | Ok dob =>
      r <- repository.UpdateUser (repo s) id (models.ureq_Name req) dob ;;
      match r with
      | Err err =>
          if decide (err = ErrNoRows) then ret (Err user_not_found)
          else ret (Err err)
      | Ok user =>
          ret (Ok {| models.ID := sqlc.ID user;
                     models.Name := sqlc.Name user;
                     models.DOB := time.FormatDate (sqlc.Dob user);
                     models.Age := None |})
      end
  end.

Definition DeleteUser (s : userService) (id : Z) : IO (option error) :=
  r <- repository.DeleteUser (repo s) id ;;
  match r with
  | Some err =>
      if decide (err = ErrNoRows) then ret (Some user_not_found)
      else ret (Some err)
  | None => ret None
  end.

End service.

(** The service of [cmd/server/main.go]: the repository over the
    database. *)
Definition theService : service.userService :=
  service.NewUserService repository.NewUserRepository.

(** ** Package strconv *)

Module strconv.

Inductive NumError : Type := ErrSyntax | ErrRange.

(** The loop of [ParseUint] in base 10 over the bytes of the string: [n]
    is a [uint64], [maxVal] the largest value of the bit size. A letter is
    a digit of a larger base and a syntax error like any other byte. *)
Fixpoint ParseUint_loop (s : string) (n maxVal : Z) : Z * option NumError :=
  match s with
  | EmptyString => (n, None)
  | String c s' =>
      if isDigit c then
        if (2 ^ 64 - 1) / 10 + 1 <=? n then (maxVal, Some ErrRange)
        else
          let n := n * 10 in
          let n1 := (n + digit c) mod 2 ^ 64 in
          if (n1 <? n) || (maxVal <? n1) then (maxVal, Some ErrRange)
          else ParseUint_loop s' n1 maxVal
      else (0, Some ErrSyntax)
  end.

(** [strconv.ParseUint(s, 10, bitSize)]. *)
Definition ParseUint (s : string) (bitSize : Z) : Z * option NumError :=
  match s with
  | EmptyString => (0, Some ErrSyntax)
  | _ => ParseUint_loop s 0 (2 ^ bitSize - 1)
  end.

(** [strconv.ParseInt(s, 10, bitSize)]: the value and the error. *)
Definition ParseInt (s : string) (bitSize : Z) : Z * option NumError :=
  match s with
  | EmptyString => (0, Some ErrSyntax)
  | String c rest =>
      let '(neg, s') :=
        if Ascii.eqb c "+" then (false, rest)
        else if Ascii.eqb c "-" then (true, rest)
        else (false, s) in
      match ParseUint s' bitSize with
      | (_, Some ErrSyntax) => (0, Some ErrSyntax)
      | (un, _) =>
          let cutoff := 2 ^ (bitSize - 1) in
          if negb neg && (cutoff <=? un) then (cutoff - 1, Some ErrRange)
          else if neg && (cutoff <? un) then (- cutoff, Some ErrRange)
          else (if neg then - un else un, None)
      end
  end.

End strconv.

(** ** Package handler *)

Module handler.

Definition StatusOK : Z := 200.
Definition StatusNoContent : Z := 204.
Definition StatusBadRequest : Z := 400.
Definition StatusNotFound : Z := 404.
Definition StatusInternalServerError : Z := 500.

(** What a handler sends: the status and the value handed to [c.JSON],
    or the status alone ([c.SendStatus]). *)
Inductive Body : Type :=
| ErrorMap (msg : string)                       (* fiber.Map{"error": msg} *)
| UserJSON (user : models.UserResponse)
| UsersJSON (responses : list models.UserResponse)
| StatusOnly.

Record Response : Type := mkResponse {
  Status : Z;
  Sent : Body
}.

Record userHandler : Type := {
  service : service.userService
}.

Definition NewUserHandler (s : service.userService) : userHandler :=
  {| service := s |}.

(** [err.Error() == "user not found"]. The texts of the other errors are
    those of [sql.ErrNoRows], of the server and of [time.Parse]; none is
    this one. *)
Definition is_user_not_found (err : error) : bool :=
  match err with
  | errorString s => String.eqb s "user not found"
  | _ => false
  end.

(** [idParam] is [c.Params("id")]. *)
Definition GetUserByID (h : userHandler) (idParam : string) : IO Response :=
  match strconv.ParseInt idParam 32 with
  | (_, Some _) => ret (mkResponse StatusBadRequest (ErrorMap "Invalid user ID"))
  | (id, None) =>
      r <- service.GetUserByID (service h) (int32 id) ;;
      match r with
      | Err err =>
          if is_user_not_found err
          then ret (mkResponse StatusNotFound (ErrorMap "User not found"))
          else ret (mkResponse StatusInternalServerError (ErrorMap "Failed to get user"))
      | Ok user => ret (mkResponse StatusOK (UserJSON user))
      end
  end.

(** [page] and [pageSize] are [c.QueryInt("page", 1)] and
    [c.QueryInt("page_size", 10)]. The total is dropped. *)
Definition ListUsers (h : userHandler) (page pageSize : Z) : IO Response :=
  r <- service.ListUsers (service h) page pageSize ;;
  match r with
  | Err err =>
      ret (mkResponse StatusInternalServerError (ErrorMap "Failed to list users"))
  | Ok (responses, _) => ret (mkResponse StatusOK (UsersJSON responses))
  end.

Definition DeleteUser (h : userHandler) (idParam : string) : IO Response :=
  match strconv.ParseInt idParam 32 with
  | (_, Some _) => ret (mkResponse StatusBadRequest (ErrorMap "Invalid user ID"))
  | (id, None) =>
      r <- service.DeleteUser (service h) (int32 id) ;;
      match r with
      | Some err =>
          if is_user_not_found err
          then ret (mkResponse StatusNotFound (ErrorMap "User not found"))
          else ret (mkResponse StatusInternalServerError (ErrorMap "Failed to delete user"))
      | None => ret (mkResponse StatusNoContent StatusOnly)
      end
  end.

End handler.

(** The handler of [cmd/server/main.go], over the service. *)
Definition theHandler : handler.userHandler := handler.NewUserHandler theService.

(** * Vocabulary of the statements *)

(** The reading the next call of [time.Now()] returns. *)
Definition next_reading (w : World) : Time := clock w (reads w).

(** A world whose clock stands at [now]. *)
Definition world_at (now : Time) (d : sqlc.DB) : World := mkWorld (fun _ => now) 0 d.

(** A server that stores every name without the byte 0, over a connection
    that never fails. *)
Definition lenient_server : sqlc.Server :=
  sqlc.mkServer (fun _ => true) (fun _ => true) (fun _ => None).

Definition empty_db : sqlc.DB := sqlc.mkDB ∅ 0 (mkTime 2024 12 18 0) [] lenient_server.

(** The birthday of the reference year is still to come. *)
Definition birthday_pending (now dob : Time) : Prop :=
  Month now < Month dob \/ (Month now = Month dob /\ Day now < Day dob).

(** The order of calendar dates. *)
Definition date_lt (a b : Time) : Prop :=
  Year a < Year b
  \/ (Year a = Year b /\ (Month a < Month b \/ (Month a = Month b /\ Day a < Day b))).

Definition same_date (a b : Time) : Prop :=
  Year a = Year b /\ Month a = Month b /\ Day a = Day b.

Definition date_le (a b : Time) : Prop := date_lt a b \/ same_date a b.

(** A clock that passes midnight between its first and its second
    reading. *)
Definition clock_over_midnight (n : nat) : Time :=
  match n with
  | O => mkTime 2024 12 17 (86399 * 10 ^ 9)
  | S _ => mkTime 2024 12 18 0
  end.

Definition response_of (u : sqlc.User) (age : option Z) : models.UserResponse :=
  {| models.ID := sqlc.ID u;
     models.Name := sqlc.Name u;
     models.DOB := time.FormatDate (sqlc.Dob u);
     models.Age := age |}.

(** The world after [n] more readings of the clock. *)
Definition advance (n : nat) (w : World) : World :=
  mkWorld (clock w) (reads w + n) (db w).

(** The age computed for [dob] at the [i]-th reading from [w] on. *)
Definition age_at_reading (w : World) (i : nat) (dob : Time) : Z :=
  eval (models.CalculateAge dob) (advance i w).

(** The page and page size [ListUsers] works with. *)
Definition clamp_page (page : Z) : Z := if page <? 1 then 1 else page.
Definition clamp_pageSize (pageSize : Z) : Z :=
  if (pageSize <? 1) || (100 <? pageSize) then 10 else pageSize.

(** The arguments [ListUsers] hands to the repository. *)
Definition limit_of (pageSize : Z) : Z := int32 (clamp_pageSize pageSize).
Definition offset_of (page pageSize : Z) : Z :=
  int32 (int_mul (int_sub (clamp_page page) 1) (clamp_pageSize pageSize)).

(** A user created just before midnight of their birthday and read twice,
    the second time after midnight. *)
Definition ada_request : models.CreateUserRequest :=
  {| models.creq_Name := "Ada"; models.creq_DOB := "1990-12-18" |}.

Definition ada : sqlc.User :=
  sqlc.mkUser 1 "Ada" (mkTime 1990 12 18 0) (mkTime 2024 12 18 0) (mkTime 2024 12 18 0).

Definition world_with_ada : World :=
  exec (service.CreateUser theService ada_request)
    (mkWorld clock_over_midnight 0 empty_db).

(** The requests the service answers, and the worlds it can be in: it
    starts on an empty table, and between two requests the clock may have
    been read any number of times. *)
Inductive request : Type :=
| ReqCreateUser (req : models.CreateUserRequest)
| ReqGetUserByID (id : Z)
| ReqListUsers (page pageSize : Z)
| ReqUpdateUser (id : Z) (req : models.UpdateUserRequest)
| ReqDeleteUser (id : Z).

Definition serve (r : request) (w : World) : World :=
  match r with
  | ReqCreateUser req => exec (service.CreateUser theService req) w
  | ReqGetUserByID id => exec (service.GetUserByID theService id) w
  | ReqListUsers page pageSize => exec (service.ListUsers theService page pageSize) w
  | ReqUpdateUser id req => exec (service.UpdateUser theService id req) w
  | ReqDeleteUser id => exec (service.DeleteUser theService id) w
  end.

Inductive reachable : World -> Prop :=
| reachable_start (c : nat -> Time) (ts : Time) (srv : sqlc.Server) :
    reachable (mkWorld c 0 (sqlc.mkDB ∅ 0 ts [] srv))
| reachable_serve (r : request) (w : World) :
    reachable w -> reachable (serve r w)
| reachable_tick (n : nat) (w : World) :
    reachable w -> reachable (advance n w)
| reachable_server_clock (ts : Time) (w : World) :
    reachable w ->
    reachable (mkWorld (clock w) (reads w)
                 (sqlc.mkDB (sqlc.users (db w)) (sqlc.users_id_seq (db w)) ts
                    (sqlc.received (db w)) (sqlc.server (db w)))).

(** Every stored date of birth is a well-formed date. *)
Definition stored_dates_ok (d : sqlc.DB) : Prop :=
  map_Forall (fun _ u => WellFormed (sqlc.Dob u)) (sqlc.users d).

(** What the table looks like in every world the service can be in: a row
    is stored under its id, ids are those the sequence handed out, and every
    date of birth is one [time.Parse] accepted. *)
Definition row_ok (seq : Z) (k : Z) (u : sqlc.User) : Prop :=
  sqlc.ID u = k /\ 1 <= k <= seq
  /\ WellFormed (sqlc.Dob u) /\ 0 <= Year (sqlc.Dob u) <= 9999
  /\ DayNanos (sqlc.Dob u) = 0.

Definition db_ok (d : sqlc.DB) : Prop :=
  0 <= sqlc.users_id_seq d <= 2 ^ 31 - 1
  /\ map_Forall (row_ok (sqlc.users_id_seq d)) (sqlc.users d).

(** The ten digits, and the finite checks behind the round trips of
    [FormatDate] and [ParseDate]: every run of four (or two) digits is
    printed back as it was read, and every year from 0 to 9999 (every
    number below 100) is read back as it was printed. *)
Definition digit_chars : list ascii :=
  ["0"; "1"; "2"; "3"; "4"; "5"; "6"; "7"; "8"; "9"]%char.

Definition prints_four_digits : bool :=
  forallb (fun a => forallb (fun b => forallb (fun c => forallb (fun d =>
    String.eqb
      (appendInt (((digit a * 10 + digit b) * 10 + digit c) * 10 + digit d) 4)
      (String a (String b (String c (String d EmptyString)))))
    digit_chars) digit_chars) digit_chars) digit_chars.

Definition prints_two_digits : bool :=
  forallb (fun a => forallb (fun b =>
    String.eqb (appendInt (digit a * 10 + digit b) 2) (String a (String b EmptyString)))
    digit_chars) digit_chars.

Definition reads_year (y : Z) : bool :=
  match getyear (appendInt y 4) with
  | Some (y', EmptyString) => y' =? y
  | _ => false
  end.

Definition reads_number (n : Z) : bool :=
  match getnum (appendInt n 2) true with
  | Some (n', EmptyString) => n' =? n
  | _ => false
  end.

Definition below (n : Z) : list Z := map Z.of_nat (seq 0 (Z.to_nat n)).

(** The rows of the page [ListUsers] is asked for, and the ids of the
    users it answers with. *)
Definition page_rows (d : sqlc.DB) (page pageSize : Z) : list sqlc.User :=
  take (Z.to_nat (clamp_pageSize pageSize))
    (drop (Z.to_nat ((clamp_page page - 1) * clamp_pageSize pageSize)) (sqlc.rows d)).

Definition page_ids (page pageSize : Z) (w : World) : list Z :=
  match eval (service.ListUsers theService page pageSize) w with
  | Ok (responses, _) => map models.ID responses
  | Err _ => []
  end.

(** The number a run of decimal digits denotes, read after [acc]. *)
Fixpoint decimal (s : string) (acc : Z) : option Z :=
  match s with
  | EmptyString => Some acc
  | String c s' => if isDigit c then decimal s' (acc * 10 + digit c) else None
  end.

Definition unsigned_numeral (s : string) : option Z :=
  match s with
  | EmptyString => None
  | _ => decimal s 0
  end.

(** The integer a decimal numeral with an optional sign denotes. *)
Definition numeral (s : string) : option Z :=
  match s with
  | EmptyString => None
  | String c rest =>
      if Ascii.eqb c "+" then unsigned_numeral rest
      else if Ascii.eqb c "-" then Z.opp <$> unsigned_numeral rest
      else unsigned_numeral s
  end.

(** An id the handlers accept: a numeral of a 32-bit integer. *)
Definition id_of (idParam : string) : option Z :=
  match numeral idParam with
  | Some n => if (- 2 ^ 31 <=? n) && (n <=? 2 ^ 31 - 1) then Some n else None
  | None => None
  end.

(** Every stored name is one the server can store. *)
Definition stored_names_ok (d : sqlc.DB) : Prop :=
  map_Forall (fun _ u => sqlc.name_ok d (sqlc.Name u) = true) (sqlc.users d).



(** Five users created one after the other, the second one deleted: the
    ids of the table are 1, 3, 4 and 5. *)
Definition crowd : World :=
  foldl (fun w r => serve r w) (mkWorld clock_over_midnight 0 empty_db)
    [ ReqCreateUser {| models.creq_Name := "Ada"; models.creq_DOB := "1990-12-18" |};
      ReqCreateUser {| models.creq_Name := "Bob"; models.creq_DOB := "1985-12-25" |};
      ReqCreateUser {| models.creq_Name := "Cy"; models.creq_DOB := "2000-01-01" |};
      ReqCreateUser {| models.creq_Name := "Dee"; models.creq_DOB := "1995-03-20" |};
      ReqCreateUser {| models.creq_Name := "Eve"; models.creq_DOB := "1990-05-10" |};
      ReqDeleteUser 2 ].

(** The worlds in which the pages of [crowd] are asked for one after the
    other, two users a page. *)
Definition crowd_after (calls : nat) : World :=
  match calls with
  | O => crowd
  | S _ => exec (service.ListUsers theService 1 2) crowd
  end.

(** * Properties *)

(** ** Machine integers *)

Lemma int_wrap_small (z : Z) : in_int z -> int_wrap z = z.
Proof.
  unfold in_int, int_wrap. intros Hz.
  rewrite Z.mod_small; lia.
Qed.

Lemma int32_small (z : Z) : in_int32 z -> int32 z = z.
Proof.
  unfold in_int32, int32. intros Hz.
  rewrite Z.mod_small; lia.
Qed.

Lemma int32_range (z : Z) : in_int32 (int32 z).
Proof.
  unfold in_int32, int32.
  pose proof (Z.mod_pos_bound (z + 2 ^ 31) (2 ^ 32) ltac:(lia)). lia.
Qed.

(** ** The calendar *)

Lemma month_cases (m : Z) :
  1 <= m <= 12 ->
  m = 1 \/ m = 2 \/ m = 3 \/ m = 4 \/ m = 5 \/ m = 6 \/
  m = 7 \/ m = 8 \/ m = 9 \/ m = 10 \/ m = 11 \/ m = 12.
Proof. lia. Qed.

Lemma daysIn_bounds (m y : Z) : 1 <= m <= 12 -> 28 <= daysIn m y <= 31.
Proof.
  intros Hm. apply month_cases in Hm.
  unfold daysIn, February.
  destruct Hm as [-> | [-> | [-> | [-> | [-> | [-> | [-> | [-> | [-> | [-> | [-> | ->]]]]]]]]]]];
    try (change (2 =? 2) with true; cbv iota; destruct (isLeap y); lia);
    vm_compute; split; discriminate.
Qed.

Lemma daysIn_not_February (m y y' : Z) : m <> February -> daysIn m y = daysIn m y'.
Proof.
  intros Hm. unfold daysIn.
  destruct (Z.eqb_spec m February); [contradiction | reflexivity].
Qed.

Lemma daysIn_February (y : Z) : daysIn February y = if isLeap y then 29 else 28.
Proof. reflexivity. Qed.

Lemma carry_days_valid (fuel : nat) (y m d : Z) :
  1 <= d <= daysIn m y -> carry_days (S fuel) y m d = (y, m, d).
Proof.
  intros Hd. simpl.
  destruct (Z.ltb_spec d 1); [lia |].
  destruct (Z.ltb_spec (daysIn m y) d); [lia | reflexivity].
Qed.

(** [time.Date] leaves a valid calendar date as it is. *)
Lemma Date_valid (y m d : Z) : valid_date y m d -> Date y m d = mkTime y m d 0.
Proof.
  intros (Hy & Hm & Hd). unfold Date, norm.
  replace ((m - 1) / 12) with 0 by (symmetry; apply Z.div_small; lia).
  rewrite Z.mod_small by lia.
  replace (y + 0) with y by lia. replace (m - 1 + 1) with m by lia.
  replace (Z.to_nat (Z.abs d) + 1)%nat with (S (Z.to_nat (Z.abs d))) by lia.
  rewrite carry_days_valid by assumption. reflexivity.
Qed.

Lemma carry_days_over (fuel : nat) (y m d : Z) :
  1 <= d -> daysIn m y < d -> m <> December ->
  carry_days (S fuel) y m d = carry_days fuel y (m + 1) (d - daysIn m y).
Proof.
  intros H1 H2 Hm. cbn [carry_days].
  destruct (Z.ltb_spec d 1); [lia |].
  destruct (Z.ltb_spec (daysIn m y) d); [| lia].
  destruct (Z.eqb_spec m December); [contradiction | reflexivity].
Qed.

(** February 29 of a year that has none is March 1. *)
Lemma Date_February_29 (y : Z) : isLeap y = false -> Date y 2 29 = mkTime y 3 1 0.
Proof.
  intros Hl. unfold Date, norm.
  change ((2 - 1) / 12) with 0. change ((2 - 1) mod 12) with 1.
  replace (y + 0) with y by lia. change (1 + 1) with 2.
  replace (Z.to_nat (Z.abs 29) + 1)%nat with (S (S 28)) by reflexivity.
  assert (Hd : daysIn 2 y = 28)
    by (change (daysIn 2 y) with (if isLeap y then 29 else 28); rewrite Hl; reflexivity).
  rewrite carry_days_over by (rewrite ?Hd; unfold December; lia).
  rewrite Hd. change (2 + 1) with 3. change (29 - 28) with 1.
  rewrite carry_days_valid; [reflexivity |].
  change (daysIn 3 y) with 31. lia.
Qed.

(** ** Running [CalculateAge] *)

Lemma CalculateAge_run (dob : Time) (w : World) :
  models.CalculateAge dob w =
    (let now := next_reading w in
     let age := int_sub (Year now) (Year dob) in
     if (Month now <? Month dob) || ((Month now =? Month dob) && (Day now <? Day dob))
     then int_sub age 1 else age,
     mkWorld (clock w) (S (reads w)) (db w)).
Proof. reflexivity. Qed.

Lemma pending_true (now dob : Time) :
  birthday_pending now dob ->
  (Month now <? Month dob) || ((Month now =? Month dob) && (Day now <? Day dob)) = true.
Proof.
  unfold birthday_pending. intros H.
  destruct (Z.ltb_spec (Month now) (Month dob)); [reflexivity |].
  destruct (Z.eqb_spec (Month now) (Month dob)); [| lia].
  destruct (Z.ltb_spec (Day now) (Day dob)); [reflexivity | lia].
Qed.

Lemma pending_false (now dob : Time) :
  ~ birthday_pending now dob ->
  (Month now <? Month dob) || ((Month now =? Month dob) && (Day now <? Day dob)) = false.
Proof.
  unfold birthday_pending. intros H.
  destruct (Z.ltb_spec (Month now) (Month dob)); [lia |].
  destruct (Z.eqb_spec (Month now) (Month dob)); [| reflexivity].
  destruct (Z.ltb_spec (Day now) (Day dob)); [lia | reflexivity].
Qed.

Lemma WellFormed_year (t : Time) : WellFormed t -> - maxYear <= Year t <= maxYear.
Proof. intros [(Hy & _) _]. exact Hy. Qed.

(** The value of [CalculateAge]: the years of two times are far from the
    bounds of [int], so neither subtraction wraps. *)
Lemma CalculateAge_pending_years (dob : Time) (w : World) :
  - maxYear <= Year dob <= maxYear ->
  - maxYear <= Year (next_reading w) <= maxYear ->
  birthday_pending (next_reading w) dob ->
  eval (models.CalculateAge dob) w = Year (next_reading w) - Year dob - 1.
Proof.
  intros Hd Hn Hp. unfold maxYear in *.
  unfold eval. rewrite CalculateAge_run. cbn [fst].
  rewrite (pending_true _ _ Hp). unfold int_sub.
  rewrite (int_wrap_small (Year (next_reading w) - Year dob)) by (unfold in_int; lia).
  apply int_wrap_small. unfold in_int; lia.
Qed.

Lemma CalculateAge_not_pending_years (dob : Time) (w : World) :
  - maxYear <= Year dob <= maxYear ->
  - maxYear <= Year (next_reading w) <= maxYear ->
  ~ birthday_pending (next_reading w) dob ->
  eval (models.CalculateAge dob) w = Year (next_reading w) - Year dob.
Proof.
  intros Hd Hn Hp. unfold maxYear in *.
  unfold eval. rewrite CalculateAge_run. cbn [fst].
  rewrite (pending_false _ _ Hp). unfold int_sub.
  apply int_wrap_small. unfold in_int; lia.
Qed.

Lemma CalculateAge_pending (dob : Time) (w : World) :
  WellFormed dob -> WellFormed (next_reading w) ->
  birthday_pending (next_reading w) dob ->
  eval (models.CalculateAge dob) w = Year (next_reading w) - Year dob - 1.
Proof.
  intros Hd Hn. apply CalculateAge_pending_years; apply WellFormed_year; assumption.
Qed.

Lemma CalculateAge_not_pending (dob : Time) (w : World) :
  WellFormed dob -> WellFormed (next_reading w) ->
  ~ birthday_pending (next_reading w) dob ->
  eval (models.CalculateAge dob) w = Year (next_reading w) - Year dob.
Proof.
  intros Hd Hn. apply CalculateAge_not_pending_years; apply WellFormed_year; assumption.
Qed.

Lemma pending_dec (now dob : Time) :
  birthday_pending now dob \/ ~ birthday_pending now dob.
Proof. unfold birthday_pending. lia. Qed.

Ltac wf_date :=
  unfold WellFormed, valid_date; cbn;
  repeat split; try reflexivity; vm_compute; discriminate.

(** ** The age formula *)

(** C1. For every date of birth and every reference date (the date the
    clock returns), the age is [now.year - dob.year], less one exactly
    when [now.month < dob.month], or the months are equal and
    [now.day < dob.day]; otherwise it is the difference of the years. *)
Theorem CalculateAge_formula (dob : Time) (w : World) :
  WellFormed dob -> WellFormed (next_reading w) ->
  (birthday_pending (next_reading w) dob ->
   eval (models.CalculateAge dob) w = Year (next_reading w) - Year dob - 1)
  /\ (~ birthday_pending (next_reading w) dob ->
      eval (models.CalculateAge dob) w = Year (next_reading w) - Year dob).
Proof.
  intros Hd Hn. split; intros Hp.
  - apply CalculateAge_pending; assumption.
  - apply CalculateAge_not_pending; assumption.
Qed.

Lemma CalculateAge_formula_witness :
  let dob := mkTime 1990 12 25 0 in
  let w := world_at (mkTime 2024 12 18 (15 * 3600 * 10 ^ 9)) empty_db in
  (birthday_pending (next_reading w) dob ->
   eval (models.CalculateAge dob) w = Year (next_reading w) - Year dob - 1)
  /\ (~ birthday_pending (next_reading w) dob ->
      eval (models.CalculateAge dob) w = Year (next_reading w) - Year dob).
Proof.
  intros dob w. apply (CalculateAge_formula dob w); wf_date.
Defined.

(** The fixtures of the design document, with the clock at the reference
    date. *)
Example age_birthday_passed :
  eval (models.CalculateAge (mkTime 1990 1 15 0)) (world_at (mkTime 2024 12 18 0) empty_db) = 34.
Proof. reflexivity. Qed.

Example age_birthday_later_this_month :
  eval (models.CalculateAge (mkTime 1990 12 25 0)) (world_at (mkTime 2024 12 18 0) empty_db) = 33.
Proof. reflexivity. Qed.

Example age_birthday_today :
  eval (models.CalculateAge (mkTime 1990 12 18 0)) (world_at (mkTime 2024 12 18 0) empty_db) = 34.
Proof. reflexivity. Qed.

(** ** The clock *)

(** C2, as stated, fails: [CalculateAge] has the date of birth as its only
    input and reads the clock itself, so two calls with the same date of
    birth differ when the birthday begins between them. *)
Lemma CalculateAge_depends_on_clock :
  let dob := mkTime 1990 12 18 0 in
  let w := mkWorld clock_over_midnight 0 empty_db in
  eval (a1 <- models.CalculateAge dob ;;
        a2 <- models.CalculateAge dob ;;
        ret (a1, a2)) w = (33, 34).
Proof. reflexivity. Qed.

(** C2, amended. [CalculateAge] takes the date of birth only and reads
    the reference instant from the process clock, once per call; it
    leaves the database alone, and its result is determined by the date
    of birth and the calendar date of that reading: calls whose readings
    fall on the same date return the same integer. *)
Theorem CalculateAge_determined_by_reading (dob : Time) (w1 w2 : World) :
  same_date (next_reading w1) (next_reading w2) ->
  eval (models.CalculateAge dob) w1 = eval (models.CalculateAge dob) w2
  /\ db (exec (models.CalculateAge dob) w1) = db w1
  /\ clock (exec (models.CalculateAge dob) w1) = clock w1
  /\ reads (exec (models.CalculateAge dob) w1) = S (reads w1).
Proof.
  intros (Hy & Hm & Hd). unfold eval, exec.
  rewrite !CalculateAge_run. cbn [fst snd db clock reads].
  rewrite Hy, Hm, Hd. repeat split; reflexivity.
Qed.

Lemma CalculateAge_determined_by_reading_witness :
  let dob := mkTime 1990 12 18 0 in
  let w1 := world_at (mkTime 2024 12 18 0) empty_db in
  let w2 := mkWorld clock_over_midnight 1 empty_db in
  eval (models.CalculateAge dob) w1 = eval (models.CalculateAge dob) w2
  /\ db (exec (models.CalculateAge dob) w1) = db w1
  /\ clock (exec (models.CalculateAge dob) w1) = clock w1
  /\ reads (exec (models.CalculateAge dob) w1) = S (reads w1).
Proof.
  intros dob w1 w2. apply (CalculateAge_determined_by_reading dob w1 w2).
  repeat split; reflexivity.
Defined.

(** ** Sign of the age *)

(** C3. For a date of birth on the reference date or before it, the age is
    not negative. *)
Theorem CalculateAge_nonneg (dob : Time) (w : World) :
  WellFormed dob -> WellFormed (next_reading w) ->
  date_le dob (next_reading w) ->
  0 <= eval (models.CalculateAge dob) w.
Proof.
  intros Hd Hn Hle.
  destruct (pending_dec (next_reading w) dob) as [Hp | Hp].
  - rewrite CalculateAge_pending by assumption.
    unfold date_le, date_lt, same_date, birthday_pending in *. lia.
  - rewrite CalculateAge_not_pending by assumption.
    unfold date_le, date_lt, same_date, birthday_pending in *. lia.
Qed.

Lemma CalculateAge_nonneg_witness :
  0 <= eval (models.CalculateAge (mkTime 2024 12 18 0))
         (world_at (mkTime 2024 12 18 (8 * 3600 * 10 ^ 9)) empty_db).
Proof.
  apply CalculateAge_nonneg; [wf_date | wf_date |].
  right. repeat split; reflexivity.
Defined.

(** C9. For a date of birth after the reference date nothing is checked:
    the function returns a number, and that number is negative or zero. *)
Theorem CalculateAge_future_dob (dob : Time) (w : World) :
  WellFormed dob -> WellFormed (next_reading w) ->
  date_lt (next_reading w) dob ->
  eval (models.CalculateAge dob) w <= 0.
Proof.
  intros Hd Hn Hlt.
  destruct (pending_dec (next_reading w) dob) as [Hp | Hp].
  - rewrite CalculateAge_pending by assumption.
    unfold date_lt, birthday_pending in *. lia.
  - rewrite CalculateAge_not_pending by assumption.
    unfold date_lt, birthday_pending in *. lia.
Qed.

Lemma CalculateAge_future_dob_witness :
  eval (models.CalculateAge (mkTime 2025 1 1 0))
    (world_at (mkTime 2024 12 18 0) empty_db) <= 0.
Proof.
  apply CalculateAge_future_dob; [wf_date | wf_date |].
  left. cbn. lia.
Defined.


(** ** Leap days *)

(** C8. A date of birth on February 29 against a reference date on
    February 28 of a year without a leap day: nothing is special-cased,
    the comparison is the one of the integers, 28 < 29, so the birthday
    counts as still to come and the year difference is decremented. *)
Theorem CalculateAge_leap_day (dob : Time) (w : World) :
  WellFormed dob -> WellFormed (next_reading w) ->
  Month dob = February -> Day dob = 29 ->
  Month (next_reading w) = February -> Day (next_reading w) = 28 ->
  isLeap (Year (next_reading w)) = false ->
  birthday_pending (next_reading w) dob
  /\ eval (models.CalculateAge dob) w = Year (next_reading w) - Year dob - 1.
Proof.
  intros Hd Hn Hm Hday Hm' Hday' _.
  assert (Hp : birthday_pending (next_reading w) dob).
  { unfold birthday_pending. right. lia. }
  split; [exact Hp |]. apply CalculateAge_pending; assumption.
Qed.

Lemma CalculateAge_leap_day_witness :
  let dob := mkTime 2000 2 29 0 in
  let w := world_at (mkTime 2023 2 28 0) empty_db in
  birthday_pending (next_reading w) dob
  /\ eval (models.CalculateAge dob) w = Year (next_reading w) - Year dob - 1.
Proof.
  intros dob w. apply (CalculateAge_leap_day dob w); try reflexivity; wf_date.
Defined.

Example age_leap_day_2023 :
  eval (models.CalculateAge (mkTime 2000 2 29 0)) (world_at (mkTime 2023 2 28 0) empty_db) = 22.
Proof. reflexivity. Qed.

(** ** Around the birthday *)

(** The date of birth thirty years before a valid date: the same month and
    day, except that [time.Date] turns the February 29 of a year that has
    none into March 1. *)
Lemma Date_thirty_years_before (Y M D : Z) :
  valid_date Y M D -> - maxYear <= Y - 30 ->
  (valid_date (Y - 30) M D /\ Date (Y - 30) M D = mkTime (Y - 30) M D 0)
  \/ (M = 2 /\ D = 29 /\ Date (Y - 30) M D = mkTime (Y - 30) 3 1 0).
Proof.
  intros (Hy & Hm & Hd) Hlo.
  destruct (Z.eq_dec M February) as [-> | HM].
  - unfold February in *.
    assert (HdY : daysIn 2 Y <= 29).
    { change (daysIn 2 Y) with (if isLeap Y then 29 else 28). destruct (isLeap Y); lia. }
    destruct (isLeap (Y - 30)) eqn:Hl.
    + left. assert (Hv : valid_date (Y - 30) 2 D).
      { repeat split; try lia.
        change (daysIn 2 (Y - 30)) with (if isLeap (Y - 30) then 29 else 28).
        rewrite Hl. lia. }
      split; [exact Hv | apply Date_valid; exact Hv].
    + destruct (Z.eq_dec D 29) as [-> | HD].
      * right. repeat split. apply Date_February_29. exact Hl.
      * left. assert (Hv : valid_date (Y - 30) 2 D).
        { repeat split; try lia.
          change (daysIn 2 (Y - 30)) with (if isLeap (Y - 30) then 29 else 28).
          rewrite Hl. lia. }
        split; [exact Hv | apply Date_valid; exact Hv].
  - left. assert (Hv : valid_date (Y - 30) M D).
    { repeat split; try lia.
      rewrite (daysIn_not_February M (Y - 30) Y) by exact HM. lia. }
    split; [exact Hv | apply Date_valid; exact Hv].
Qed.

(** Thirty years before February 29, 2024 there is no February 29: the
    date [time.Date(now.Year()-30, now.Month(), now.Day(), ...)] of the
    test "Birthday today" is then March 1, 1994, whose month and day are
    not those of the day, and that birthday is still to come. *)
Example thirty_years_before_a_leap_day :
  Date (2024 - 30) 2 29 = mkTime 1994 3 1 0
  /\ eval (models.CalculateAge (Date (2024 - 30) 2 29))
       (world_at (Date 2024 2 29) empty_db) = 29.
Proof. split; reflexivity. Qed.

(** C6. When the month and the day of the reference date are those of the
    date of birth, no decrement is applied, at any time of that day: the
    age is the difference of the years, and so 30 for the date of birth
    (Y-30, M, D) on the date (Y, M, D). *)
Theorem CalculateAge_birthday_today (dob : Time) (w : World) :
  WellFormed dob -> WellFormed (next_reading w) ->
  Month (next_reading w) = Month dob ->
  Day (next_reading w) = Day dob ->
  ~ birthday_pending (next_reading w) dob
  /\ eval (models.CalculateAge dob) w = Year (next_reading w) - Year dob
  /\ (Year dob = Year (next_reading w) - 30 -> eval (models.CalculateAge dob) w = 30).
Proof.
  intros Hdob Hnow Hm Hd.
  assert (Hp : ~ birthday_pending (next_reading w) dob).
  { unfold birthday_pending. lia. }
  split; [exact Hp |].
  rewrite (CalculateAge_not_pending dob w Hdob Hnow Hp).
  split; [reflexivity | lia].
Qed.

Lemma CalculateAge_birthday_today_witness :
  eval (models.CalculateAge (mkTime 1994 12 18 0))
    (world_at (mkTime 2024 12 18 (9 * 3600 * 10 ^ 9)) empty_db) = 30
  /\ eval (models.CalculateAge (mkTime 1996 2 29 0))
       (world_at (mkTime 2024 2 29 0) empty_db) = 2024 - 1996.
Proof.
  split.
  - apply (CalculateAge_birthday_today (mkTime 1994 12 18 0)
             (world_at (mkTime 2024 12 18 (9 * 3600 * 10 ^ 9)) empty_db));
      [wf_date | wf_date | reflexivity | reflexivity | reflexivity].
  - apply (CalculateAge_birthday_today (mkTime 1996 2 29 0)
             (world_at (mkTime 2024 2 29 0) empty_db));
      [wf_date | wf_date | reflexivity | reflexivity].
Defined.

(** C7. The age changes by one over the birthday: for every calendar date
    (Y, M, D), the age of [date(Y-30, M, D)] is 29 on [date(Y, M, D-1)]
    when that is a calendar date, and 30 on [date(Y, M, D+1)] when that is
    one. *)
Theorem CalculateAge_around_birthday (Y M D : Z) (w : World) :
  valid_date Y M D -> - maxYear <= Y - 30 ->
  (valid_date Y M (D - 1) -> same_date (next_reading w) (Date Y M (D - 1)) ->
   eval (models.CalculateAge (Date (Y - 30) M D)) w = 29)
  /\ (valid_date Y M (D + 1) -> same_date (next_reading w) (Date Y M (D + 1)) ->
      eval (models.CalculateAge (Date (Y - 30) M D)) w = 30).
Proof.
  intros HY Hlo.
  pose proof HY as (HyY & HmY & HdY).
  split; intros Hv (Hy & Hm & Hd);
    rewrite (Date_valid _ _ _ Hv) in Hy, Hm, Hd; cbn in Hy, Hm, Hd.
  - destruct (Date_thirty_years_before Y M D HY Hlo) as [[_ ->] | (-> & -> & ->)].
    + rewrite CalculateAge_pending_years; cbn; try lia.
      unfold birthday_pending. cbn. lia.
    + rewrite CalculateAge_pending_years; cbn; try lia.
      unfold birthday_pending. cbn. lia.
  - destruct (Date_thirty_years_before Y M D HY Hlo) as [[_ ->] | (-> & -> & ->)].
    + rewrite CalculateAge_not_pending_years; cbn; try lia.
      unfold birthday_pending. cbn. lia.
    + destruct Hv as (_ & _ & Hd29).
      change (daysIn 2 Y) with (if isLeap Y then 29 else 28) in Hd29.
      destruct (isLeap Y); lia.
Qed.

Lemma CalculateAge_around_birthday_witness :
  (eval (models.CalculateAge (Date (2024 - 30) 2 29))
     (world_at (Date 2024 2 (29 - 1)) empty_db) = 29)
  /\ (eval (models.CalculateAge (Date (2024 - 30) 12 18))
        (world_at (Date 2024 12 (18 + 1)) empty_db) = 30).
Proof.
  split.
  - apply (CalculateAge_around_birthday 2024 2 29).
    + unfold valid_date. repeat split; vm_compute; discriminate.
    + vm_compute; discriminate.
    + unfold valid_date. repeat split; vm_compute; discriminate.
    + repeat split; reflexivity.
  - apply (CalculateAge_around_birthday 2024 12 18).
    + unfold valid_date. repeat split; vm_compute; discriminate.
    + vm_compute; discriminate.
    + unfold valid_date. repeat split; vm_compute; discriminate.
    + repeat split; reflexivity.
Defined.

(** ** Running the service *)

Lemma advance_0 (w : World) : advance 0 w = w.
Proof. destruct w. unfold advance. cbn. f_equal. lia. Qed.

Lemma age_at_reading_0 (w : World) (dob : Time) :
  age_at_reading w 0 dob = eval (models.CalculateAge dob) w.
Proof. unfold age_at_reading. rewrite advance_0. reflexivity. Qed.

(** The age depends on the clock only, not on the database. *)
Lemma CalculateAge_eval_db (dob : Time) (w : World) (d : sqlc.DB) :
  eval (models.CalculateAge dob) (mkWorld (clock w) (reads w) d)
  = eval (models.CalculateAge dob) w.
Proof. reflexivity. Qed.

Lemma responses_of_run (users : list sqlc.User) :
  forall (acc : list models.UserResponse) (w : World),
    service.responses_of users acc w =
      (acc ++ imap (fun i u => response_of u (Some (age_at_reading w i (sqlc.Dob u)))) users,
       advance (length users) w).
Proof.
  induction users as [| u users IH]; intros acc w.
  - cbn. rewrite app_nil_r, advance_0. reflexivity.
  - cbn [service.responses_of]. unfold bind at 1.
    rewrite CalculateAge_run. rewrite IH.
    rewrite <- app_assoc. cbn [app imap]. f_equal.
    + f_equal. f_equal.
      * unfold response_of. rewrite age_at_reading_0.
        unfold eval. rewrite CalculateAge_run. reflexivity.
      * apply imap_ext. intros i x _. cbn. unfold age_at_reading, advance. cbn.
        replace (reads w + S i)%nat with (S (reads w + i)) by lia. reflexivity.
    + unfold advance. cbn. f_equal. lia.
Qed.

(** ** Pagination *)

Lemma clamp_pageSize_range (pageSize : Z) : 1 <= clamp_pageSize pageSize <= 100.
Proof.
  unfold clamp_pageSize.
  destruct (Z.ltb_spec pageSize 1); cbn; [lia |].
  destruct (Z.ltb_spec 100 pageSize); lia.
Qed.

Lemma clamp_page_range (page : Z) : 1 <= clamp_page page.
Proof. unfold clamp_page. destruct (Z.ltb_spec page 1); lia. Qed.

(** [ListUsers] over the database, run in one step. *)
Lemma ListUsers_run (page pageSize : Z) (w : World) :
  service.ListUsers theService page pageSize w =
    match sqlc.ListUsers {| sqlc.lp_Limit := limit_of pageSize;
                            sqlc.lp_Offset := offset_of page pageSize |} (db w) with
    | (Err e, d) => (Err e, mkWorld (clock w) (reads w) d)
    | (Ok users, d) =>
        let d' := sqlc.receive sqlc.StCountUsers d in
        (Ok (imap (fun i u => response_of u (Some (age_at_reading w i (sqlc.Dob u)))) users,
             Z.of_nat (size (sqlc.users d'))),
         mkWorld (clock w) (reads w + length users) d')
    end.
Proof.
  unfold service.ListUsers, theService, service.NewUserService,
    repository.NewUserRepository, limit_of, offset_of, clamp_page, clamp_pageSize.
  cbn [service.repo repository.ListUsers repository.CountUsers].
  unfold bind at 1. unfold with_db at 1.
  destruct (sqlc.ListUsers _ (db w)) as [[users | e] d]; [| reflexivity].
  unfold bind at 1. unfold with_db at 1. cbn [sqlc.CountUsers db].
  unfold bind. rewrite responses_of_run. cbn [app].
  unfold ret, advance, age_at_reading, advance. cbn. reflexivity.
Qed.

(** What holds of every call: the limit sent lies in [1, 100], and while
    [(page-1)*pageSize] fits in 32 bits the offset sent is that product. *)
Lemma ListUsers_statement (page pageSize : Z) (w : World) :
  (exists rest,
     sqlc.received (db (exec (service.ListUsers theService page pageSize) w)) =
       sqlc.received (db w)
       ++ sqlc.StListUsers (limit_of pageSize) (offset_of page pageSize) :: rest)
  /\ limit_of pageSize = clamp_pageSize pageSize
  /\ 1 <= limit_of pageSize <= 100
  /\ ((clamp_page page - 1) * clamp_pageSize pageSize <= 2 ^ 31 - 1 ->
      offset_of page pageSize = (clamp_page page - 1) * clamp_pageSize pageSize
      /\ 0 <= offset_of page pageSize).
Proof.
  pose proof (clamp_pageSize_range pageSize) as Hs.
  pose proof (clamp_page_range page) as Hp.
  assert (Hl : limit_of pageSize = clamp_pageSize pageSize).
  { unfold limit_of. apply int32_small. unfold in_int32. lia. }
  split; [| split; [exact Hl | split; [lia |]]].
  - unfold exec. rewrite ListUsers_run.
    unfold sqlc.ListUsers. cbn [sqlc.lp_Limit sqlc.lp_Offset].
    destruct (offset_of page pageSize <? 0); [eexists; reflexivity |].
    destruct (limit_of pageSize <? 0); [eexists; reflexivity |].
    cbn. rewrite <- app_assoc. eexists; reflexivity.
  - intros Hfit. assert (0 <= (clamp_page page - 1) * clamp_pageSize pageSize) by nia.
    unfold offset_of, int_mul, int_sub.
    assert (Hpage : clamp_page page - 1 <= 2 ^ 31 - 1) by nia.
    rewrite (int_wrap_small (clamp_page page - 1)) by (unfold in_int; lia).
    rewrite int_wrap_small by (unfold in_int; lia).
    rewrite int32_small by (unfold in_int32; lia). lia.
Qed.

(** C10 fails on the code for a large page: [int32(offset)] keeps the low
    32 bits, so from page 214748366 on (with the page size 10) the offset
    sent is negative and the server refuses the statement. *)
Theorem ListUsers_offset_overflow :
  let w := world_at (mkTime 2024 12 18 0) empty_db in
  (clamp_page 214748366 - 1) * clamp_pageSize 10 = 2147483650
  /\ offset_of 214748366 10 = -2147483646
  /\ sqlc.received (db (exec (service.ListUsers theService 214748366 10) w))
     = [sqlc.StListUsers 10 (-2147483646)]
  /\ eval (service.ListUsers theService 214748366 10) w
     = Err (PgError "OFFSET must not be negative").
Proof. repeat split; reflexivity. Qed.

(** ** Dates that reach the age calculation *)

Lemma isDigit_digit (c : ascii) : isDigit c = true -> 0 <= digit c <= 9.
Proof.
  unfold isDigit, digit. intros H.
  apply andb_true_iff in H as [H1 H2].
  apply Z.leb_le in H1, H2. lia.
Qed.

Lemma getyear_range (s rest : string) (y : Z) :
  getyear s = Some (y, rest) -> 0 <= y <= 9999.
Proof.
  unfold getyear.
  destruct s as [| a [| b [| c [| d s]]]]; try discriminate.
  destruct (isDigit a) eqn:Ha; [| discriminate].
  destruct (isDigit b) eqn:Hb; [| discriminate].
  destruct (isDigit c) eqn:Hc; [| discriminate].
  destruct (isDigit d) eqn:Hd; [| discriminate].
  cbn. intros [= <- _].
  apply isDigit_digit in Ha, Hb, Hc, Hd. lia.
Qed.

Lemma getnum_range (s rest : string) (fixed : bool) (n : Z) :
  getnum s fixed = Some (n, rest) -> 0 <= n <= 99.
Proof.
  unfold getnum.
  destruct s as [| c0 s]; [discriminate |].
  destruct (isDigit c0) eqn:H0; [| discriminate].
  apply isDigit_digit in H0.
  destruct s as [| c1 s].
  - destruct fixed; [discriminate |]. intros [= <- _]. lia.
  - destruct (isDigit c1) eqn:H1.
    + apply isDigit_digit in H1. intros [= <- _]. lia.
    + destruct fixed; [discriminate |]. intros [= <- _]. lia.
Qed.

(** Whatever [time.Parse] accepts with this layout is a calendar date, at
    midnight, of a year from 0 to 9999. *)
Lemma ParseDate_WellFormed (value : string) (t : Time) :
  ParseDate value = Ok t -> WellFormed t /\ 0 <= Year t <= 9999 /\ DayNanos t = 0.
Proof.
  unfold ParseDate.
  destruct (getyear value) as [[year v1] |] eqn:Hy; [| discriminate].
  destruct (skip_dash v1) as [v2 |]; [| discriminate].
  destruct (getnum v2 true) as [[month v3] |] eqn:Hm; [| discriminate].
  destruct (Z.leb_spec month 0); cbn [orb]; [discriminate |].
  destruct (Z.ltb_spec 12 month); [discriminate |].
  destruct (skip_dash v3) as [v4 |]; [| discriminate].
  destruct (getnum v4 true) as [[day v5] |] eqn:Hd; [| discriminate].
  destruct (negb _); [discriminate |].
  destruct (Z.ltb_spec day 1); cbn [orb]; [discriminate |].
  destruct (Z.ltb_spec (daysIn month year) day); [discriminate |].
  intros [= <-].
  apply getyear_range in Hy.
  assert (Hv : valid_date year month day).
  { unfold valid_date, maxYear. lia. }
  rewrite (Date_valid _ _ _ Hv). cbn.
  split; [| split; [assumption | reflexivity]].
  split; [exact Hv | cbn; lia].
Qed.

(** C5. The age computation has no error result: it returns a number and
    reads the clock once. A date string that [time.Parse] refuses never
    gets that far: [CreateUser] and [UpdateUser] return the error
    "invalid date format, use YYYY-MM-DD" before anything is sent to the
    store, whatever the repository; and what [time.Parse] accepts is a
    well-formed date. *)
Theorem malformed_date_rejected
  (s : service.userService) (w : World) (id : Z) (name value : string) (e : error) :
  ParseDate value = Err e ->
  service.CreateUser s {| models.creq_Name := name; models.creq_DOB := value |} w
    = (Err (errorString "invalid date format, use YYYY-MM-DD"), w)
  /\ service.UpdateUser s id {| models.ureq_Name := name; models.ureq_DOB := value |} w
     = (Err (errorString "invalid date format, use YYYY-MM-DD"), w)
  /\ (forall dob : Time,
        models.CalculateAge dob w = (eval (models.CalculateAge dob) w, advance 1 w))
  /\ (forall (v : string) (t : Time), ParseDate v = Ok t -> WellFormed t).
Proof.
  intros Hparse. split; [| split; [| split]].
  - unfold service.CreateUser. cbn [models.creq_DOB]. rewrite Hparse. reflexivity.
  - unfold service.UpdateUser. cbn [models.ureq_DOB]. rewrite Hparse. reflexivity.
  - intros dob. unfold eval. rewrite CalculateAge_run. cbn [fst].
    unfold advance. repeat f_equal. lia.
  - intros v t Hv. apply (ParseDate_WellFormed v t Hv).
Qed.

Lemma malformed_date_rejected_witness :
  let w := world_at (mkTime 2024 12 18 0) empty_db in
  service.CreateUser theService
    {| models.creq_Name := "Ada"; models.creq_DOB := "1990-02-30" |} w
    = (Err (errorString "invalid date format, use YYYY-MM-DD"), w)
  /\ service.UpdateUser theService 1
       {| models.ureq_Name := "Ada"; models.ureq_DOB := "1990-02-30" |} w
     = (Err (errorString "invalid date format, use YYYY-MM-DD"), w)
  /\ (forall dob : Time,
        models.CalculateAge dob w = (eval (models.CalculateAge dob) w, advance 1 w))
  /\ (forall (v : string) (t : Time), ParseDate v = Ok t -> WellFormed t).
Proof.
  intros w.
  apply (malformed_date_rejected theService w 1 "Ada" "1990-02-30"
           (ParseError "day out of range")).
  reflexivity.
Defined.

Example ParseDate_accepts : ParseDate "1990-05-10" = Ok (mkTime 1990 5 10 0).
Proof. reflexivity. Qed.

Example ParseDate_refuses_short_month : ParseDate "1990-5-10" = Err errBad.
Proof. reflexivity. Qed.

Example ParseDate_refuses_month_13 :
  ParseDate "1990-13-10" = Err (ParseError "month out of range").
Proof. reflexivity. Qed.

Example ParseDate_refuses_trailing_text :
  ParseDate "1990-05-10T00:00" = Err (ParseError "extra text").
Proof. reflexivity. Qed.

Example FormatDate_pads : FormatDate (mkTime 1990 5 10 0) = "1990-05-10"%string.
Proof. reflexivity. Qed.

(** ** The age is derived, never stored *)

Lemma rows_in_table (d : sqlc.DB) (u : sqlc.User) :
  u ∈ sqlc.rows d -> exists k, sqlc.users d !! k = Some u.
Proof.
  unfold sqlc.rows. rewrite merge_sort_Permutation.
  intros Hin. apply list_elem_of_In, in_map_iff in Hin as ([k u'] & Heq & Hin).
  cbn in Heq. subst u'. exists k.
  apply list_elem_of_In, elem_of_map_to_list in Hin. exact Hin.
Qed.

Lemma sqlc_ListUsers_rows (arg : sqlc.ListUsersParams) (d : sqlc.DB) :
  sqlc.users (snd (sqlc.ListUsers arg d)) = sqlc.users d
  /\ forall us, fst (sqlc.ListUsers arg d) = Ok us ->
       Forall (fun u => exists k, sqlc.users d !! k = Some u) us.
Proof.
  unfold sqlc.ListUsers.
  destruct (sqlc.lp_Offset arg <? 0); [split; [reflexivity | discriminate] |].
  destruct (sqlc.lp_Limit arg <? 0); [split; [reflexivity | discriminate] |].
  split; [reflexivity |]. cbn [fst]. intros us [= <-].
  apply Forall_take, Forall_drop, Forall_forall. intros u Hu.
  apply rows_in_table in Hu. exact Hu.
Qed.

Lemma GetUserByID_run (id : Z) (w : World) :
  service.GetUserByID theService id w =
    let d := sqlc.receive (sqlc.StGetUserByID id) (db w) in
    match sqlc.users (db w) !! id with
    | Some u =>
        (Ok (response_of u (Some (eval (models.CalculateAge (sqlc.Dob u)) w))),
         mkWorld (clock w) (S (reads w)) d)
    | None => (Err service.user_not_found, mkWorld (clock w) (reads w) d)
    end.
Proof.
  unfold service.GetUserByID, theService, service.NewUserService,
    repository.NewUserRepository.
  cbn [service.repo repository.GetUserByID].
  unfold bind at 1. unfold with_db, sqlc.GetUserByID.
  cbn [sqlc.users sqlc.receive db].
  destruct (sqlc.users (db w) !! id) as [u |]; [| reflexivity].
  unfold bind. rewrite CalculateAge_run. reflexivity.
Qed.

Lemma to_DATE_parsed (value : string) (dob : Time) :
  ParseDate value = Ok dob -> sqlc.to_DATE dob = dob.
Proof.
  intros H. apply ParseDate_WellFormed in H as (_ & _ & Hn).
  destruct dob as [y m d n]. cbn in Hn. subst n. reflexivity.
Qed.

Lemma CreateUser_run (req : models.CreateUserRequest) (w : World) :
  service.CreateUser theService req w =
    match ParseDate (models.creq_DOB req) with
    | Err _ => (Err service.invalid_date_format, w)
    | Ok dob =>
        match sqlc.CreateUser {| sqlc.cp_Name := models.creq_Name req;
                                 sqlc.cp_Dob := dob |} (db w) with
        | (Ok u, d) => (Ok (response_of u None), mkWorld (clock w) (reads w) d)
        | (Err e, d) => (Err e, mkWorld (clock w) (reads w) d)
        end
    end.
Proof.
  unfold service.CreateUser, theService, service.NewUserService,
    repository.NewUserRepository.
  cbn [service.repo repository.CreateUser].
  destruct (ParseDate (models.creq_DOB req)) as [dob | e]; [| reflexivity].
  unfold bind, with_db.
  destruct (sqlc.CreateUser _ (db w)) as [[u | e] d]; reflexivity.
Qed.

Lemma UpdateUser_run (id : Z) (req : models.UpdateUserRequest) (w : World) :
  service.UpdateUser theService id req w =
    match ParseDate (models.ureq_DOB req) with
    | Err _ => (Err service.invalid_date_format, w)
    | Ok dob =>
        match sqlc.UpdateUser {| sqlc.up_Name := models.ureq_Name req;
                                 sqlc.up_Dob := dob;
                                 sqlc.up_ID := id |} (db w) with
        | (Ok u, d) => (Ok (response_of u None), mkWorld (clock w) (reads w) d)
        | (Err e, d) =>
            (Err (if decide (e = ErrNoRows) then service.user_not_found else e),
             mkWorld (clock w) (reads w) d)
        end
    end.
Proof.
  unfold service.UpdateUser, theService, service.NewUserService,
    repository.NewUserRepository.
  cbn [service.repo repository.UpdateUser].
  destruct (ParseDate (models.ureq_DOB req)) as [dob | e]; [| reflexivity].
  unfold bind, with_db.
  destruct (sqlc.UpdateUser _ (db w)) as [[u | e] d]; [reflexivity |].
  destruct (decide (e = ErrNoRows)); reflexivity.
Qed.

(** C4. The age is not a column of [users]: a row is
    [id, name, dob, created_at, updated_at]. Reading a user by id, or a
    page of users, leaves the table as it was and computes each age from
    the stored date of birth at a fresh reading of the clock; creating or
    updating a user stores the name and the parsed date of birth, answers
    without an age and does not read the clock. *)
Theorem age_derived_never_stored (w : World) :
  (forall (id : Z) (u : sqlc.User),
     sqlc.users (db w) !! id = Some u ->
     eval (service.GetUserByID theService id) w
       = Ok (response_of u (Some (eval (models.CalculateAge (sqlc.Dob u)) w)))
     /\ sqlc.users (db (exec (service.GetUserByID theService id) w)) = sqlc.users (db w))
  /\ (forall page pageSize : Z,
        sqlc.users (db (exec (service.ListUsers theService page pageSize) w))
          = sqlc.users (db w)
        /\ forall (resps : list models.UserResponse) (total : Z),
             eval (service.ListUsers theService page pageSize) w = Ok (resps, total) ->
             exists rows : list sqlc.User,
               Forall (fun u => exists k, sqlc.users (db w) !! k = Some u) rows
               /\ resps = imap (fun i u =>
                                  response_of u (Some (age_at_reading w i (sqlc.Dob u))))
                               rows)
  /\ (forall (req : models.CreateUserRequest) (resp : models.UserResponse),
        eval (service.CreateUser theService req) w = Ok resp ->
        models.Age resp = None
        /\ reads (exec (service.CreateUser theService req) w) = reads w
        /\ exists dob : Time,
             ParseDate (models.creq_DOB req) = Ok dob
             /\ sqlc.users (db (exec (service.CreateUser theService req) w))
                = <[models.ID resp :=
                      sqlc.mkUser (models.ID resp) (models.creq_Name req) dob
                        (sqlc.current_timestamp (db w)) (sqlc.current_timestamp (db w))]>
                    (sqlc.users (db w)))
  /\ (forall (id : Z) (req : models.UpdateUserRequest) (resp : models.UserResponse),
        eval (service.UpdateUser theService id req) w = Ok resp ->
        models.Age resp = None
        /\ reads (exec (service.UpdateUser theService id req) w) = reads w
        /\ exists (dob : Time) (old : sqlc.User),
             ParseDate (models.ureq_DOB req) = Ok dob
             /\ sqlc.users (db w) !! id = Some old
             /\ sqlc.users (db (exec (service.UpdateUser theService id req) w))
                = <[id := sqlc.mkUser id (models.ureq_Name req) dob
                            (sqlc.CreatedAt old) (sqlc.current_timestamp (db w))]>
                    (sqlc.users (db w))).
Proof.
  split; [| split; [| split]].
  - intros id u Hu. unfold eval, exec. rewrite GetUserByID_run. cbn zeta.
    rewrite Hu. split; reflexivity.
  - intros page pageSize. unfold eval, exec. rewrite ListUsers_run.
    pose proof (sqlc_ListUsers_rows
                  {| sqlc.lp_Limit := limit_of pageSize;
                     sqlc.lp_Offset := offset_of page pageSize |} (db w)) as [Hsame Hrows].
    destruct (sqlc.ListUsers _ (db w)) as [[us | e] d]; cbn [fst snd] in *.
    + split; [exact Hsame |]. intros resps total [= <- _].
      exists us. split; [apply Hrows; reflexivity | reflexivity].
    + split; [exact Hsame | discriminate].
  - intros req resp. unfold eval, exec. rewrite CreateUser_run.
    destruct (ParseDate (models.creq_DOB req)) as [dob | e] eqn:Hparse; [| discriminate].
    unfold sqlc.CreateUser. cbn [sqlc.cp_Name sqlc.cp_Dob sqlc.users_id_seq sqlc.receive
                                 sqlc.users sqlc.current_timestamp sqlc.server].
    destruct (negb (sqlc.text_ok _ _)); [discriminate |].
    destruct (2 ^ 31 - 1 <? sqlc.users_id_seq (db w) + 1); [discriminate |].
    destruct (sqlc.users (db w) !! (sqlc.users_id_seq (db w) + 1)); [discriminate |].
    destruct (negb (sqlc.index_fits _ _)); [discriminate |].
    cbn [fst snd db reads sqlc.users]. intros [= <-].
    split; [reflexivity | split; [reflexivity |]].
    exists dob. split; [reflexivity |].
    rewrite (to_DATE_parsed _ _ Hparse). reflexivity.
  - intros id req resp. unfold eval, exec. rewrite UpdateUser_run.
    destruct (ParseDate (models.ureq_DOB req)) as [dob | e] eqn:Hparse; [| discriminate].
    unfold sqlc.UpdateUser. cbn [sqlc.up_Name sqlc.up_Dob sqlc.up_ID sqlc.receive
                                 sqlc.users sqlc.current_timestamp sqlc.users_id_seq
                                 sqlc.server].
    destruct (negb (sqlc.text_ok _ _)); [discriminate |].
    destruct (sqlc.users (db w) !! id) as [old |] eqn:Hold; [| discriminate].
    destruct (negb (sqlc.index_fits _ _)); [discriminate |].
    cbn [fst snd db reads sqlc.users]. intros [= <-].
    split; [reflexivity | split; [reflexivity |]].
    exists dob, old. split; [reflexivity | split; [reflexivity |]].
    rewrite (to_DATE_parsed _ _ Hparse). reflexivity.
Qed.

Lemma age_derived_never_stored_witness :
  eval (service.GetUserByID theService 1) world_with_ada
    = Ok (response_of ada (Some (eval (models.CalculateAge (sqlc.Dob ada)) world_with_ada)))
  /\ sqlc.users (db (exec (service.GetUserByID theService 1) world_with_ada))
     = sqlc.users (db world_with_ada).
Proof.
  apply (proj1 (age_derived_never_stored world_with_ada) 1 ada).
  vm_compute. reflexivity.
Defined.

Example age_read_twice :
  eval (r1 <- service.GetUserByID theService 1 ;;
        r2 <- service.GetUserByID theService 1 ;;
        ret (r1, r2)) world_with_ada
  = (Ok (response_of ada (Some 33)), Ok (response_of ada (Some 34))).
Proof. vm_compute. reflexivity. Qed.

Example create_answers_without_age :
  eval (service.CreateUser theService ada_request)
    (mkWorld clock_over_midnight 0 empty_db)
  = Ok {| models.ID := 1; models.Name := "Ada"; models.DOB := "1990-12-18";
          models.Age := None |}.
Proof. vm_compute. reflexivity. Qed.

Example list_first_page :
  eval (service.ListUsers theService 0 0) world_with_ada
  = Ok ([response_of ada (Some 33)], 1).
Proof. vm_compute. reflexivity. Qed.

(** ** Missing rows *)

Lemma DeleteUser_run (id : Z) (w : World) :
  service.DeleteUser theService id w =
    match sqlc.next_exec_error (db w) with
    | Some err =>
        (Some (if decide (err = ErrNoRows) then service.user_not_found else err),
         mkWorld (clock w) (reads w) (sqlc.receive (sqlc.StDeleteUser id) (db w)))
    | None =>
        (None,
         mkWorld (clock w) (reads w)
           (sqlc.mkDB (delete id (sqlc.users (db w))) (sqlc.users_id_seq (db w))
              (sqlc.current_timestamp (db w))
              (sqlc.received (db w) ++ [sqlc.StDeleteUser id]) (sqlc.server (db w))))
    end.
Proof.
  unfold service.DeleteUser, theService, service.NewUserService,
    repository.NewUserRepository.
  cbn [service.repo repository.DeleteUser].
  unfold bind, with_db, sqlc.DeleteUser.
  destruct (sqlc.next_exec_error (db w)) as [err |]; [| reflexivity].
  cbn [fst snd]. destruct (decide (err = ErrNoRows)); reflexivity.
Qed.

(** X1. [GetUserByID] answers with a user exactly for the ids of the table; for
    any other id the error is "user not found" and the clock is not read.
    Either way the table is left as it was. *)
Theorem GetUserByID_found_iff (id : Z) (w : World) :
  ((exists resp, eval (service.GetUserByID theService id) w = Ok resp)
   <-> is_Some (sqlc.users (db w) !! id))
  /\ (sqlc.users (db w) !! id = None ->
      eval (service.GetUserByID theService id) w = Err (errorString "user not found")
      /\ reads (exec (service.GetUserByID theService id) w) = reads w)
  /\ sqlc.users (db (exec (service.GetUserByID theService id) w)) = sqlc.users (db w).
Proof.
  unfold eval, exec. rewrite GetUserByID_run. cbn zeta.
  destruct (sqlc.users (db w) !! id) as [u |] eqn:Hu; cbn [fst snd db reads sqlc.users].
  - split; [| split; [discriminate | reflexivity]].
    split; [intros _; eexists; reflexivity | intros _; eexists; reflexivity].
  - split; [| split; [intros _; split; reflexivity | reflexivity]].
    split; [intros [resp H]; discriminate | intros [u H]; discriminate].
Qed.

Lemma GetUserByID_found_iff_witness :
  eval (service.GetUserByID theService 7) world_with_ada = Err (errorString "user not found")
  /\ reads (exec (service.GetUserByID theService 7) world_with_ada) = reads world_with_ada.
Proof.
  apply (proj1 (proj2 (GetUserByID_found_iff 7 world_with_ada))).
  vm_compute. reflexivity.
Defined.

(** X2. [UpdateUser] with a well-formed date and an id that is not in the
    table changes no row. When the name is a text the server accepts as a
    parameter, the answer is "user not found"; when it is not (a name with
    the byte 0, say), the answer is the error of the server instead. *)
Theorem UpdateUser_missing (id : Z) (req : models.UpdateUserRequest) (dob : Time) (w : World) :
  ParseDate (models.ureq_DOB req) = Ok dob ->
  sqlc.users (db w) !! id = None ->
  (sqlc.text_ok (db w) (models.ureq_Name req) = true ->
   eval (service.UpdateUser theService id req) w = Err (errorString "user not found"))
  /\ (sqlc.text_ok (db w) (models.ureq_Name req) = false ->
      exists msg, eval (service.UpdateUser theService id req) w = Err (PgError msg))
  /\ sqlc.users (db (exec (service.UpdateUser theService id req) w)) = sqlc.users (db w).
Proof.
  intros Hparse Hnone. unfold eval, exec. rewrite UpdateUser_run, Hparse.
  unfold sqlc.UpdateUser.
  cbn [sqlc.up_ID sqlc.up_Name sqlc.up_Dob sqlc.receive sqlc.users].
  change (sqlc.text_ok (sqlc.receive _ (db w)) (models.ureq_Name req))
    with (sqlc.text_ok (db w) (models.ureq_Name req)).
  destruct (sqlc.text_ok (db w) (models.ureq_Name req)); cbn [negb].
  - rewrite Hnone. cbn [fst snd db sqlc.users].
    destruct (decide (ErrNoRows = ErrNoRows)); [| contradiction].
    split; [reflexivity | split; [discriminate | reflexivity]].
  - cbn [fst snd db sqlc.users].
    destruct (decide (PgError "invalid byte sequence for encoding" = ErrNoRows));
      [discriminate |].
    split; [discriminate | split; [intros _; eexists; reflexivity | reflexivity]].
Qed.

Lemma UpdateUser_missing_witness :
  let bob := {| models.ureq_Name := "Bob"; models.ureq_DOB := "2001-02-03" |} in
  let nul := {| models.ureq_Name := String zero EmptyString;
                models.ureq_DOB := "2001-02-03" |} in
  eval (service.UpdateUser theService 7 bob) world_with_ada
    = Err (errorString "user not found")
  /\ exists msg, eval (service.UpdateUser theService 7 nul) world_with_ada
                 = Err (PgError msg).
Proof.
  intros bob nul. split.
  - apply (UpdateUser_missing 7 bob (mkTime 2001 2 3 0) world_with_ada);
      vm_compute; reflexivity.
  - apply (UpdateUser_missing 7 nul (mkTime 2001 2 3 0) world_with_ada);
      vm_compute; reflexivity.
Defined.



(** ** What every reachable table looks like *)

Lemma db_ok_receive (st : sqlc.Statement) (d : sqlc.DB) :
  db_ok d -> db_ok (sqlc.receive st d).
Proof. intros H. exact H. Qed.

Lemma row_ok_seq (seq seq' k : Z) (u : sqlc.User) :
  seq <= seq' -> row_ok seq k u -> row_ok seq' k u.
Proof.
  unfold row_ok. intros Hle (H1 & H2 & H3 & H4 & H5).
  split; [exact H1 | split; [lia | split; [exact H3 | split; [exact H4 | exact H5]]]].
Qed.

Lemma ParseDate_row_ok (value name : string) (dob ts ts' : Time) (seq id : Z) :
  ParseDate value = Ok dob -> 1 <= id <= seq ->
  row_ok seq id (sqlc.mkUser id name (sqlc.to_DATE dob) ts ts').
Proof.
  intros Hparse Hid. rewrite (to_DATE_parsed _ _ Hparse).
  apply ParseDate_WellFormed in Hparse as (Hwf & Hy & Hn).
  unfold row_ok. cbn [sqlc.ID sqlc.Dob].
  split; [reflexivity | split; [exact Hid | split; [exact Hwf | split; [exact Hy | exact Hn]]]].
Qed.

Lemma CreateUser_db_ok (req : models.CreateUserRequest) (w : World) :
  db_ok (db w) -> db_ok (db (exec (service.CreateUser theService req) w)).
Proof.
  intros [Hseq Hrows]. unfold exec. rewrite CreateUser_run.
  destruct (ParseDate (models.creq_DOB req)) as [dob | e] eqn:Hparse; [| split; assumption].
  unfold sqlc.CreateUser.
  cbn [sqlc.cp_Name sqlc.cp_Dob sqlc.users_id_seq sqlc.receive sqlc.users
       sqlc.current_timestamp sqlc.server].
  destruct (negb (sqlc.text_ok _ _)); [split; assumption |].
  destruct (Z.ltb_spec (2 ^ 31 - 1) (sqlc.users_id_seq (db w) + 1)) as [Hmax | Hmax].
  { split; assumption. }
  assert (Hrows' : map_Forall (row_ok (sqlc.users_id_seq (db w) + 1)) (sqlc.users (db w))).
  { eapply map_Forall_impl; [exact Hrows |]. intros k u. apply row_ok_seq. lia. }
  destruct (sqlc.users (db w) !! (sqlc.users_id_seq (db w) + 1)) eqn:Hfree.
  - split; cbn; [lia | exact Hrows'].
  - destruct (negb (sqlc.index_fits _ _)).
    + split; cbn; [lia | exact Hrows'].
    + split; cbn; [lia |].
      apply map_Forall_insert_2; [| exact Hrows'].
      eapply ParseDate_row_ok; [exact Hparse | lia].
Qed.

Lemma UpdateUser_db_ok (id : Z) (req : models.UpdateUserRequest) (w : World) :
  db_ok (db w) -> db_ok (db (exec (service.UpdateUser theService id req) w)).
Proof.
  intros [Hseq Hrows]. unfold exec. rewrite UpdateUser_run.
  destruct (ParseDate (models.ureq_DOB req)) as [dob | e] eqn:Hparse; [| split; assumption].
  unfold sqlc.UpdateUser.
  cbn [sqlc.up_Name sqlc.up_Dob sqlc.up_ID sqlc.users_id_seq sqlc.receive sqlc.users
       sqlc.current_timestamp sqlc.server].
  destruct (negb (sqlc.text_ok _ _)); [split; assumption |].
  destruct (sqlc.users (db w) !! id) as [old |] eqn:Hold.
  - destruct (negb (sqlc.index_fits _ _)); [split; assumption |].
    split; cbn; [lia |].
    apply map_Forall_insert_2; [| exact Hrows].
    eapply ParseDate_row_ok; [exact Hparse |].
    apply Hrows in Hold. destruct Hold as (_ & Hk & _). exact Hk.
  - split; assumption.
Qed.

Lemma serve_db_ok (r : request) (w : World) : db_ok (db w) -> db_ok (db (serve r w)).
Proof.
  intros Hok. destruct r as [req | id | page pageSize | id req | id]; unfold serve.
  - apply CreateUser_db_ok. exact Hok.
  - unfold exec. rewrite GetUserByID_run. cbn zeta.
    destruct (sqlc.users (db w) !! id); exact Hok.
  - unfold exec. rewrite ListUsers_run. unfold sqlc.ListUsers.
    cbn [sqlc.lp_Offset sqlc.lp_Limit].
    destruct (offset_of page pageSize <? 0); [exact Hok |].
    destruct (limit_of pageSize <? 0); exact Hok.
  - apply UpdateUser_db_ok. exact Hok.
  - unfold exec. rewrite DeleteUser_run. destruct Hok as [Hseq Hrows].
    destruct (sqlc.next_exec_error (db w)); [split; assumption |].
    split; cbn; [exact Hseq |]. apply map_Forall_delete. exact Hrows.
Qed.

Lemma reachable_db_ok (w : World) : reachable w -> db_ok (db w).
Proof.
  induction 1 as [c ts srv | r w Hw IH | n w Hw IH | ts w Hw IH].
  - split; cbn; [lia | apply map_Forall_empty].
  - apply serve_db_ok. exact IH.
  - exact IH.
  - exact IH.
Qed.

(** The names of a reachable table are names the server can store: only
    such names are inserted, and the server stays the same. *)
Lemma serve_names_ok (r : request) (w : World) :
  stored_names_ok (db w) -> stored_names_ok (db (serve r w)).
Proof.
  intros Hok. destruct r as [req | id | page pageSize | id req | id]; unfold serve, exec.
  - rewrite CreateUser_run.
    destruct (ParseDate (models.creq_DOB req)) as [dob | e]; [| exact Hok].
    unfold sqlc.CreateUser.
    cbn [sqlc.cp_Name sqlc.cp_Dob sqlc.users_id_seq sqlc.receive sqlc.users
         sqlc.current_timestamp sqlc.server].
    destruct (sqlc.text_ok _ _) eqn:Htext; cbn [negb]; [| exact Hok].
    destruct (2 ^ 31 - 1 <? sqlc.users_id_seq (db w) + 1); [exact Hok |].
    destruct (sqlc.users (db w) !! (sqlc.users_id_seq (db w) + 1)); [exact Hok |].
    destruct (sqlc.index_fits _ _) eqn:Hfit; cbn [negb]; [| exact Hok].
    cbn [snd db]. apply map_Forall_insert_2; [| exact Hok].
    apply andb_true_iff. split; [exact Htext | exact Hfit].
  - rewrite GetUserByID_run. cbn zeta.
    destruct (sqlc.users (db w) !! id); exact Hok.
  - rewrite ListUsers_run. unfold sqlc.ListUsers.
    cbn [sqlc.lp_Offset sqlc.lp_Limit].
    destruct (offset_of page pageSize <? 0); [exact Hok |].
    destruct (limit_of pageSize <? 0); exact Hok.
  - rewrite UpdateUser_run.
    destruct (ParseDate (models.ureq_DOB req)) as [dob | e]; [| exact Hok].
    unfold sqlc.UpdateUser.
    cbn [sqlc.up_Name sqlc.up_Dob sqlc.up_ID sqlc.users_id_seq sqlc.receive sqlc.users
         sqlc.current_timestamp sqlc.server].
    destruct (sqlc.text_ok _ _) eqn:Htext; cbn [negb]; [| exact Hok].
    destruct (sqlc.users (db w) !! id) as [old |]; [| exact Hok].
    destruct (sqlc.index_fits _ _) eqn:Hfit; cbn [negb]; [| exact Hok].
    cbn [snd db]. apply map_Forall_insert_2; [| exact Hok].
    apply andb_true_iff. split; [exact Htext | exact Hfit].
  - rewrite DeleteUser_run.
    destruct (sqlc.next_exec_error (db w)); [exact Hok |].
    cbn [snd db]. apply map_Forall_delete. exact Hok.
Qed.

Lemma reachable_names_ok (w : World) : reachable w -> stored_names_ok (db w).
Proof.
  induction 1 as [c ts srv | r w Hw IH | n w Hw IH | ts w Hw IH].
  - apply map_Forall_empty.
  - apply serve_names_ok. exact IH.
  - exact IH.
  - exact IH.
Qed.

(** ** Printing and reading dates *)

Lemma isDigit_cases (c : ascii) : isDigit c = true -> In c digit_chars.
Proof.
  destruct c as [b0 b1 b2 b3 b4 b5 b6 b7].
  destruct b0, b1, b2, b3, b4, b5, b6, b7; intros H;
    try (vm_compute in H; discriminate H);
    unfold digit_chars; cbn [In];
    repeat (first [left; reflexivity | right]).
Qed.

Lemma prints_four_digits_true : prints_four_digits = true.
Proof. vm_compute. reflexivity. Qed.

Lemma prints_two_digits_true : prints_two_digits = true.
Proof. vm_compute. reflexivity. Qed.

Lemma appendInt_four (a b c d : ascii) :
  isDigit a = true -> isDigit b = true -> isDigit c = true -> isDigit d = true ->
  appendInt (((digit a * 10 + digit b) * 10 + digit c) * 10 + digit d) 4
  = String a (String b (String c (String d EmptyString))).
Proof.
  intros Ha Hb Hc Hd. apply isDigit_cases in Ha, Hb, Hc, Hd.
  pose proof prints_four_digits_true as H. unfold prints_four_digits in H.
  rewrite forallb_forall in H. specialize (H a Ha).
  rewrite forallb_forall in H. specialize (H b Hb).
  rewrite forallb_forall in H. specialize (H c Hc).
  rewrite forallb_forall in H. specialize (H d Hd).
  apply String.eqb_eq in H. exact H.
Qed.

Lemma appendInt_two (a b : ascii) :
  isDigit a = true -> isDigit b = true ->
  appendInt (digit a * 10 + digit b) 2 = String a (String b EmptyString).
Proof.
  intros Ha Hb. apply isDigit_cases in Ha, Hb.
  pose proof prints_two_digits_true as H. unfold prints_two_digits in H.
  rewrite forallb_forall in H. specialize (H a Ha).
  rewrite forallb_forall in H. specialize (H b Hb).
  apply String.eqb_eq in H. exact H.
Qed.

Lemma getyear_inv (s rest : string) (y : Z) :
  getyear s = Some (y, rest) ->
  exists a b c d,
    s = String a (String b (String c (String d rest)))
    /\ isDigit a = true /\ isDigit b = true /\ isDigit c = true /\ isDigit d = true
    /\ y = ((digit a * 10 + digit b) * 10 + digit c) * 10 + digit d.
Proof.
  unfold getyear.
  destruct s as [| a [| b [| c [| d s]]]]; try discriminate.
  destruct (isDigit a) eqn:Ha; [| discriminate].
  destruct (isDigit b) eqn:Hb; [| discriminate].
  destruct (isDigit c) eqn:Hc; [| discriminate].
  destruct (isDigit d) eqn:Hd; [| discriminate].
  cbn. intros [= <- <-]. exists a, b, c, d. repeat split; assumption || reflexivity.
Qed.

Lemma getnum_fixed_inv (s rest : string) (n : Z) :
  getnum s true = Some (n, rest) ->
  exists a b,
    s = String a (String b rest)
    /\ isDigit a = true /\ isDigit b = true /\ n = digit a * 10 + digit b.
Proof.
  unfold getnum.
  destruct s as [| a [| b s]]; try discriminate.
  - destruct (isDigit a); discriminate.
  - destruct (isDigit a) eqn:Ha; [| discriminate].
    destruct (isDigit b) eqn:Hb; [| discriminate].
    intros [= <- <-]. exists a, b. repeat split; assumption || reflexivity.
Qed.

Lemma skip_dash_inv (s rest : string) :
  skip_dash s = Some rest -> s = String "-" rest.
Proof.
  unfold skip_dash. destruct s as [| c s]; [discriminate |].
  destruct (Ascii.eqb_spec c "-"); [| discriminate].
  intros [= <-]. subst c. reflexivity.
Qed.

(** A date string that [time.Parse] accepts is printed back unchanged. *)
Lemma ParseDate_FormatDate (value : string) (t : Time) :
  ParseDate value = Ok t -> FormatDate t = value.
Proof.
  unfold ParseDate.
  destruct (getyear value) as [[year v1] |] eqn:Hy; [| discriminate].
  destruct (skip_dash v1) as [v2 |] eqn:H1; [| discriminate].
  destruct (getnum v2 true) as [[month v3] |] eqn:Hm; [| discriminate].
  destruct (Z.leb_spec month 0); cbn [orb]; [discriminate |].
  destruct (Z.ltb_spec 12 month); [discriminate |].
  destruct (skip_dash v3) as [v4 |] eqn:H2; [| discriminate].
  destruct (getnum v4 true) as [[day v5] |] eqn:Hd; [| discriminate].
  destruct v5 as [| c5 v5]; [| discriminate]. cbn [String.length Nat.eqb negb].
  destruct (Z.ltb_spec day 1); cbn [orb]; [discriminate |].
  destruct (Z.ltb_spec (daysIn month year) day); [discriminate |].
  intros [= <-].
  pose proof (getyear_range _ _ _ Hy) as Hyr.
  rewrite Date_valid by (unfold valid_date, maxYear; lia).
  apply getyear_inv in Hy as (a & b & c & d & -> & Ha & Hb & Hc & Hdd & ->).
  apply skip_dash_inv in H1 as ->.
  apply getnum_fixed_inv in Hm as (m1 & m2 & -> & Hm1 & Hm2 & ->).
  apply skip_dash_inv in H2 as ->.
  apply getnum_fixed_inv in Hd as (d1 & d2 & -> & Hd1 & Hd2 & ->).
  unfold FormatDate. cbn [Year Month Day].
  rewrite appendInt_four, !appendInt_two by assumption. reflexivity.
Qed.

Lemma In_below (n z : Z) : 0 <= z < n -> In z (below n).
Proof.
  intros Hz. unfold below. apply in_map_iff. exists (Z.to_nat z).
  split; [lia |]. apply in_seq. lia.
Qed.

Lemma reads_year_all : forallb reads_year (below 10000) = true.
Proof. vm_compute. reflexivity. Qed.

Lemma reads_number_all : forallb reads_number (below 100) = true.
Proof. vm_compute. reflexivity. Qed.

Lemma getyear_appendInt (y : Z) :
  0 <= y <= 9999 -> getyear (appendInt y 4) = Some (y, EmptyString).
Proof.
  intros Hy. pose proof reads_year_all as H. rewrite forallb_forall in H.
  specialize (H y (In_below 10000 y ltac:(lia))). unfold reads_year in H.
  destruct (getyear (appendInt y 4)) as [[y' [| c r]] |]; try discriminate.
  apply Z.eqb_eq in H. subst y'. reflexivity.
Qed.

Lemma getnum_appendInt (n : Z) :
  0 <= n <= 99 -> getnum (appendInt n 2) true = Some (n, EmptyString).
Proof.
  intros Hn. pose proof reads_number_all as H. rewrite forallb_forall in H.
  specialize (H n (In_below 100 n ltac:(lia))). unfold reads_number in H.
  destruct (getnum (appendInt n 2) true) as [[n' [| c r]] |]; try discriminate.
  apply Z.eqb_eq in H. subst n'. reflexivity.
Qed.

Lemma getyear_app (s r rest : string) (y : Z) :
  getyear s = Some (y, r) -> getyear (s ++ rest) = Some (y, (r ++ rest)%string).
Proof.
  intros H. apply getyear_inv in H as (a & b & c & d & -> & Ha & Hb & Hc & Hd & ->).
  change (String a (String b (String c (String d r))) ++ rest)%string
    with (String a (String b (String c (String d (r ++ rest)%string)))).
  unfold getyear. rewrite Ha, Hb, Hc, Hd. reflexivity.
Qed.

Lemma getnum_fixed_app (s r rest : string) (n : Z) :
  getnum s true = Some (n, r) -> getnum (s ++ rest) true = Some (n, (r ++ rest)%string).
Proof.
  intros H. apply getnum_fixed_inv in H as (a & b & -> & Ha & Hb & ->).
  change (String a (String b r) ++ rest)%string
    with (String a (String b (r ++ rest)%string)).
  unfold getnum. rewrite Ha, Hb. reflexivity.
Qed.

Lemma getyear_then (y : Z) (rest : string) :
  0 <= y <= 9999 -> getyear (appendInt y 4 ++ rest) = Some (y, rest).
Proof.
  intros Hy. exact (getyear_app _ EmptyString rest y (getyear_appendInt y Hy)).
Qed.

Lemma getnum_then (n : Z) (rest : string) :
  0 <= n <= 99 -> getnum (appendInt n 2 ++ rest) true = Some (n, rest).
Proof.
  intros Hn. exact (getnum_fixed_app _ EmptyString rest n (getnum_appendInt n Hn)).
Qed.

Lemma string_append_nil_r (s : string) : (s ++ EmptyString)%string = s.
Proof.
  induction s as [| c s IH]; [reflexivity |].
  change (String c s ++ EmptyString)%string with (String c (s ++ EmptyString)%string).
  rewrite IH. reflexivity.
Qed.

Lemma FormatDate_parts (t : Time) :
  FormatDate t
  = (appendInt (Year t) 4
     ++ String "-" (appendInt (Month t) 2
                    ++ String "-" (appendInt (Day t) 2 ++ EmptyString)))%string.
Proof. unfold FormatDate. rewrite string_append_nil_r. reflexivity. Qed.

(** A calendar date of a year from 0 to 9999 is read back from its printed
    form, at midnight. *)
Lemma FormatDate_ParseDate (t : Time) :
  valid_date (Year t) (Month t) (Day t) -> 0 <= Year t <= 9999 ->
  ParseDate (FormatDate t) = Ok (mkTime (Year t) (Month t) (Day t) 0).
Proof.
  intros Hv Hy. pose proof Hv as (_ & Hm & Hd).
  pose proof (daysIn_bounds (Month t) (Year t) Hm) as Hdb.
  rewrite FormatDate_parts. unfold ParseDate.
  rewrite (getyear_then _ _ Hy).
  change (skip_dash (String "-" ?s)) with (Some s).
  cbv beta iota.
  rewrite (getnum_then (Month t) _ ltac:(lia)).
  destruct (Z.leb_spec (Month t) 0); [lia |]. cbn [orb].
  destruct (Z.ltb_spec 12 (Month t)); [lia |].
  unfold skip_dash at 1. change (Ascii.eqb "-" "-") with true. cbv beta iota.
  rewrite (getnum_then (Day t) _ ltac:(lia)).
  cbn [String.length Nat.eqb negb].
  destruct (Z.ltb_spec (Day t) 1); [lia |]. cbn [orb].
  destruct (Z.ltb_spec (daysIn (Month t) (Year t)) (Day t)); [lia |].
  rewrite Date_valid by exact Hv. reflexivity.
Qed.

(** ** Creating, reading back, updating *)


Lemma text_ok_receive (st : sqlc.Statement) (d : sqlc.DB) (name : string) :
  sqlc.text_ok (sqlc.receive st d) name = sqlc.text_ok d name.
Proof. reflexivity. Qed.

Lemma name_ok_text_ok (d : sqlc.DB) (name : string) :
  sqlc.name_ok d name = true ->
  sqlc.text_ok d name = true /\ sqlc.index_fits (sqlc.server d) name = true.
Proof. unfold sqlc.name_ok. intros H. apply andb_true_iff in H. exact H. Qed.





Lemma reachable_start_world : reachable (mkWorld clock_over_midnight 0 empty_db).
Proof. apply reachable_start. Qed.




Lemma UpdateUser_run_ok
  (id : Z) (req : models.UpdateUserRequest) (dob : Time) (old : sqlc.User) (w : World) :
  ParseDate (models.ureq_DOB req) = Ok dob ->
  sqlc.users (db w) !! id = Some old ->
  sqlc.name_ok (db w) (models.ureq_Name req) = true ->
  let u := sqlc.mkUser id (models.ureq_Name req) dob
             (sqlc.CreatedAt old) (sqlc.current_timestamp (db w)) in
  service.UpdateUser theService id req w =
    (Ok {| models.ID := id; models.Name := models.ureq_Name req;
           models.DOB := models.ureq_DOB req; models.Age := None |},
     mkWorld (clock w) (reads w)
       (sqlc.mkDB (<[id := u]> (sqlc.users (db w))) (sqlc.users_id_seq (db w))
          (sqlc.current_timestamp (db w))
          (sqlc.received (db w) ++ [sqlc.StUpdateUser (models.ureq_Name req) dob id])
          (sqlc.server (db w)))).
Proof.
  intros Hparse Hold Hname u. rewrite UpdateUser_run, Hparse.
  apply name_ok_text_ok in Hname as [Htext Hfit].
  unfold sqlc.UpdateUser. cbn zeta. cbn [sqlc.up_Name sqlc.up_Dob sqlc.up_ID].
  rewrite text_ok_receive, Htext. cbn [negb].
  cbn [sqlc.users_id_seq sqlc.receive sqlc.users sqlc.current_timestamp sqlc.received
       sqlc.server].
  rewrite Hold, Hfit. cbn [negb].
  rewrite (to_DATE_parsed _ _ Hparse).
  unfold response_of. cbn [sqlc.ID sqlc.Name sqlc.Dob].
  rewrite (ParseDate_FormatDate _ _ Hparse). reflexivity.
Qed.



(** X8. What a read returns can be written back: in a reachable world the date
    string of a row, as [GetUserByID] and [ListUsers] print it, is accepted
    by [UpdateUser] and denotes the stored date, so that updating a user
    with their own name and printed date changes [updated_at] only. *)
Theorem UpdateUser_with_own_values (id : Z) (u : sqlc.User) (w : World) :
  reachable w ->
  sqlc.users (db w) !! id = Some u ->
  let req := {| models.ureq_Name := sqlc.Name u;
                models.ureq_DOB := FormatDate (sqlc.Dob u) |} in
  ParseDate (FormatDate (sqlc.Dob u)) = Ok (sqlc.Dob u)
  /\ eval (service.UpdateUser theService id req) w = Ok (response_of u None)
  /\ sqlc.users (db (exec (service.UpdateUser theService id req) w)) !! id
     = Some (sqlc.mkUser (sqlc.ID u) (sqlc.Name u) (sqlc.Dob u) (sqlc.CreatedAt u)
               (sqlc.current_timestamp (db w))).
Proof.
  intros Hr Hu req.
  pose proof (reachable_db_ok w Hr) as [_ Hrows].
  pose proof (Hrows id u Hu) as (Hid & _ & [Hv _] & Hy & Hn).
  assert (Hparse : ParseDate (FormatDate (sqlc.Dob u)) = Ok (sqlc.Dob u)).
  { rewrite (FormatDate_ParseDate _ Hv Hy).
    destruct (sqlc.Dob u) as [y m d n]. cbn in Hn. subst n. reflexivity. }
  split; [exact Hparse |].
  pose proof (reachable_names_ok w Hr id u Hu) as Hname. cbn beta in Hname.
  unfold eval, exec.
  rewrite (UpdateUser_run_ok id req (sqlc.Dob u) u w Hparse Hu Hname).
  cbn [fst snd db sqlc.users].
  rewrite lookup_insert_eq. subst id. split; reflexivity.
Qed.

Lemma reachable_world_with_ada : reachable world_with_ada.
Proof. exact (reachable_serve (ReqCreateUser ada_request) _ reachable_start_world). Qed.

Lemma UpdateUser_with_own_values_witness :
  let req := {| models.ureq_Name := sqlc.Name ada;
                models.ureq_DOB := FormatDate (sqlc.Dob ada) |} in
  ParseDate (FormatDate (sqlc.Dob ada)) = Ok (sqlc.Dob ada)
  /\ eval (service.UpdateUser theService 1 req) world_with_ada = Ok (response_of ada None)
  /\ sqlc.users (db (exec (service.UpdateUser theService 1 req) world_with_ada)) !! 1
     = Some (sqlc.mkUser (sqlc.ID ada) (sqlc.Name ada) (sqlc.Dob ada) (sqlc.CreatedAt ada)
               (sqlc.current_timestamp (db world_with_ada))).
Proof.
  apply (UpdateUser_with_own_values 1 ada world_with_ada).
  - exact reachable_world_with_ada.
  - vm_compute. reflexivity.
Defined.



(** ** Pages of [ListUsers] *)

(** [ListUsers] run in one step, for a page whose offset fits 32 bits. *)
Lemma ListUsers_run_ok (page pageSize : Z) (w : World) :
  (clamp_page page - 1) * clamp_pageSize pageSize <= 2 ^ 31 - 1 ->
  service.ListUsers theService page pageSize w =
    (Ok (imap (fun i u => response_of u (Some (age_at_reading w i (sqlc.Dob u))))
           (page_rows (db w) page pageSize),
         Z.of_nat (size (sqlc.users (db w)))),
     mkWorld (clock w) (reads w + length (page_rows (db w) page pageSize))
       (sqlc.receive sqlc.StCountUsers
          (sqlc.receive (sqlc.StListUsers (limit_of pageSize) (offset_of page pageSize))
             (db w)))).
Proof.
  intros Hfit.
  destruct (ListUsers_statement page pageSize w) as (_ & Hl & Hlr & Ho).
  destruct (Ho Hfit) as [Hoff Hpos].
  rewrite ListUsers_run. unfold sqlc.ListUsers. cbn [sqlc.lp_Limit sqlc.lp_Offset].
  destruct (Z.ltb_spec (offset_of page pageSize) 0) as [Hneg | _]; [lia |].
  destruct (Z.ltb_spec (limit_of pageSize) 0) as [Hneg | _]; [lia |].
  cbn zeta. unfold page_rows. rewrite <- Hoff, <- Hl. reflexivity.
Qed.

Lemma map_ID_imap (g : nat -> sqlc.User -> option Z) (users : list sqlc.User) :
  map models.ID (imap (fun i u => response_of u (g i u)) users) = map sqlc.ID users.
Proof.
  revert g. induction users as [| u users IH]; intros g; [reflexivity |].
  cbn [imap map]. f_equal. apply (IH (fun i => g (S i))).
Qed.

(** [ORDER BY id] is a total preorder of the rows. *)
#[local] Instance by_id_transitive : Transitive sqlc.by_id.
Proof. intros u v x. unfold sqlc.by_id. lia. Qed.

#[local] Instance by_id_total : Total sqlc.by_id.
Proof. intros u v. unfold sqlc.by_id. lia. Qed.

Lemma rows_length (d : sqlc.DB) : length (sqlc.rows d) = size (sqlc.users d).
Proof.
  unfold sqlc.rows. rewrite merge_sort_Permutation, length_map.
  apply length_map_to_list.
Qed.

(** When every row is stored under its own id, the ids of the rows are the
    keys of the table. *)
Lemma rows_keys (d : sqlc.DB) :
  (forall k u, sqlc.users d !! k = Some u -> sqlc.ID u = k) ->
  map sqlc.ID (sqlc.rows d) ≡ₚ (map_to_list (sqlc.users d)).*1.
Proof.
  intros Hid. unfold sqlc.rows. rewrite merge_sort_Permutation.
  rewrite map_map. 
  erewrite map_ext_in; [reflexivity |].
  intros [k u] Hin. cbn. apply Hid.
  apply list_elem_of_In, elem_of_map_to_list in Hin. exact Hin.
Qed.

Lemma ascending_ids (l : list sqlc.User) :
  StronglySorted sqlc.by_id l -> NoDup (map sqlc.ID l) ->
  StronglySorted Z.lt (map sqlc.ID l).
Proof.
  induction l as [| u l IH]; intros Hs Hn; [constructor |].
  apply StronglySorted_inv in Hs as [Hs Hall].
  apply NoDup_cons in Hn as [Hnotin Hn].
  cbn [map]. constructor; [apply IH; assumption |].
  apply Forall_forall. intros k Hk.
  apply list_elem_of_In, in_map_iff in Hk as (v & <- & Hv).
  rewrite Forall_forall in Hall.
  pose proof (Hall v (proj2 (list_elem_of_In _ _) Hv)) as Hle.
  unfold sqlc.by_id in Hle.
  assert (Hne : sqlc.ID u <> sqlc.ID v).
  { intros E. apply Hnotin. rewrite E. apply list_elem_of_In, in_map. exact Hv. }
  lia.
Qed.

(** In a reachable world no two rows share an id, and [ORDER BY id] lists
    them in strictly ascending order. *)
Lemma rows_ascending (w : World) :
  reachable w -> StronglySorted Z.lt (map sqlc.ID (sqlc.rows (db w))).
Proof.
  intros Hr. apply reachable_db_ok in Hr as [_ Hrows].
  assert (Hid : forall k u, sqlc.users (db w) !! k = Some u -> sqlc.ID u = k).
  { intros k u Hu. apply (Hrows k u Hu). }
  apply ascending_ids.
  - apply StronglySorted_merge_sort; apply _.
  - rewrite (rows_keys _ Hid). apply NoDup_fst_map_to_list.
Qed.

Lemma StronglySorted_take {A} (R : relation A) (n : nat) (l : list A) :
  StronglySorted R l -> StronglySorted R (take n l).
Proof.
  intros Hs. revert n. induction Hs as [| a l Hs IH Hall]; intros n.
  - rewrite take_nil. constructor.
  - destruct n as [| n]; [constructor |]. cbn [take].
    constructor; [apply IH | apply Forall_take; exact Hall].
Qed.

Lemma StronglySorted_drop {A} (R : relation A) (n : nat) (l : list A) :
  StronglySorted R l -> StronglySorted R (drop n l).
Proof.
  intros Hs. revert n. induction Hs as [| a l Hs IH Hall]; intros n.
  - rewrite drop_nil. constructor.
  - destruct n as [| n]; [constructor; assumption |]. cbn [drop]. apply IH.
Qed.

Lemma Forall_imap {A B} (P : B -> Prop) (g : nat -> A -> B) (l : list A) :
  (forall i x, x ∈ l -> P (g i x)) -> Forall P (imap g l).
Proof.
  revert g. induction l as [| a l IH]; intros g H; [constructor |].
  cbn [imap]. constructor.
  - apply H. left.
  - apply IH. intros i x Hx. apply (H (S i)). right. exact Hx.
Qed.

Lemma page_rows_in_table (d : sqlc.DB) (page pageSize : Z) (u : sqlc.User) :
  u ∈ page_rows d page pageSize -> exists k, sqlc.users d !! k = Some u.
Proof.
  unfold page_rows. intros Hu. apply rows_in_table.
  apply (subseteq_drop (Z.to_nat ((clamp_page page - 1) * clamp_pageSize pageSize))).
  apply (subseteq_take (Z.to_nat (clamp_pageSize pageSize))). exact Hu.
Qed.

Lemma page_ids_rows (page pageSize : Z) (w : World) :
  (clamp_page page - 1) * clamp_pageSize pageSize <= 2 ^ 31 - 1 ->
  page_ids page pageSize w = map sqlc.ID (page_rows (db w) page pageSize).
Proof.
  intros Hfit. unfold page_ids, eval. rewrite (ListUsers_run_ok _ _ _ Hfit).
  cbn [fst]. apply map_ID_imap.
Qed.

(** X10. [ListUsers] with a page whose offset [(page-1)*pageSize] (after
    clamping) fits 32 bits succeeds: it answers with at most [pageSize]
    users, never more than 100, each one a row of the table printed with an
    age, and with the number of rows of the whole table as the total,
    whatever the page; it leaves the table as it was and reads the clock
    once per user it answers with. *)
Theorem ListUsers_answer (page pageSize : Z) (w : World) :
  (clamp_page page - 1) * clamp_pageSize pageSize <= 2 ^ 31 - 1 ->
  exists responses,
    eval (service.ListUsers theService page pageSize) w
      = Ok (responses, Z.of_nat (size (sqlc.users (db w))))
    /\ Z.of_nat (length responses) <= clamp_pageSize pageSize <= 100
    /\ Forall (fun r => exists k u age,
                 sqlc.users (db w) !! k = Some u /\ r = response_of u (Some age)) responses
    /\ sqlc.users (db (exec (service.ListUsers theService page pageSize) w))
       = sqlc.users (db w)
    /\ reads (exec (service.ListUsers theService page pageSize) w)
       = (reads w + length responses)%nat.
Proof.
  intros Hfit. unfold eval, exec. rewrite (ListUsers_run_ok _ _ _ Hfit).
  cbn [fst snd db reads sqlc.users sqlc.receive].
  pose proof (clamp_pageSize_range pageSize) as Hs.
  eexists. split; [reflexivity |]. rewrite length_imap.
  split; [| split; [| split; reflexivity]].
  - split; [| lia]. unfold page_rows. rewrite length_take. lia.
  - apply Forall_imap. intros i u Hu.
    apply page_rows_in_table in Hu as [k Hk].
    exists k, u, (age_at_reading w i (sqlc.Dob u)). split; [exact Hk | reflexivity].
Qed.

Lemma ListUsers_answer_witness :
  exists responses,
    eval (service.ListUsers theService 1 10) world_with_ada
      = Ok (responses, Z.of_nat (size (sqlc.users (db world_with_ada))))
    /\ Z.of_nat (length responses) <= clamp_pageSize 10 <= 100
    /\ Forall (fun r => exists k u age,
                 sqlc.users (db world_with_ada) !! k = Some u
                 /\ r = response_of u (Some age)) responses
    /\ sqlc.users (db (exec (service.ListUsers theService 1 10) world_with_ada))
       = sqlc.users (db world_with_ada)
    /\ reads (exec (service.ListUsers theService 1 10) world_with_ada)
       = (reads world_with_ada + length responses)%nat.
Proof.
  apply (ListUsers_answer 1 10 world_with_ada). vm_compute. discriminate.
Defined.

(** X11. In a reachable world the users of a page come in strictly
    ascending order of their ids, so that no user appears twice on a page,
    and every id of the page is an id of the table. *)
Theorem ListUsers_ascending (page pageSize : Z) (w : World) :
  reachable w ->
  (clamp_page page - 1) * clamp_pageSize pageSize <= 2 ^ 31 - 1 ->
  StronglySorted Z.lt (page_ids page pageSize w)
  /\ forall k, k ∈ page_ids page pageSize w -> is_Some (sqlc.users (db w) !! k).
Proof.
  intros Hr Hfit. rewrite (page_ids_rows _ _ _ Hfit). split.
  - unfold page_rows. change (map sqlc.ID) with (fmap (M := list) sqlc.ID).
    rewrite fmap_take, fmap_drop.
    apply StronglySorted_take, StronglySorted_drop, rows_ascending. exact Hr.
  - intros k Hk. apply list_elem_of_In, in_map_iff in Hk as (u & <- & Hu).
    apply list_elem_of_In, page_rows_in_table in Hu as [k Hk].
    apply reachable_db_ok in Hr as [_ Hrows].
    destruct (Hrows k u Hk) as [Hid _]. rewrite Hid, Hk. eexists; reflexivity.
Qed.

Lemma reachable_crowd : reachable crowd.
Proof. unfold crowd. cbn [foldl]. repeat apply reachable_serve. apply reachable_start. Qed.

(** The pages of [crowd], two users a page: the ids 1 and 3, then 4 and 5,
    and the four of them on one page of ten. *)
Example crowd_pages :
  page_ids 1 2 crowd = [1; 3] /\ page_ids 2 2 crowd = [4; 5]
  /\ page_ids 3 2 crowd = [] /\ page_ids 1 10 crowd = [1; 3; 4; 5].
Proof. vm_compute. repeat split. Qed.

Lemma ListUsers_ascending_witness :
  StronglySorted Z.lt (page_ids 1 10 crowd)
  /\ forall k, k ∈ page_ids 1 10 crowd -> is_Some (sqlc.users (db crowd) !! k).
Proof.
  apply (ListUsers_ascending 1 10 crowd).
  - exact reachable_crowd.
  - vm_compute. discriminate.
Defined.

(** X12. A page past the end of the table is not an error: when the
    offset is at least the number of rows, [ListUsers] answers with no user
    and the total, and does not read the clock. *)
Theorem ListUsers_past_the_end (page pageSize : Z) (w : World) :
  (clamp_page page - 1) * clamp_pageSize pageSize <= 2 ^ 31 - 1 ->
  Z.of_nat (size (sqlc.users (db w))) <= (clamp_page page - 1) * clamp_pageSize pageSize ->
  eval (service.ListUsers theService page pageSize) w
    = Ok ([], Z.of_nat (size (sqlc.users (db w))))
  /\ reads (exec (service.ListUsers theService page pageSize) w) = reads w.
Proof.
  intros Hfit Hsize. unfold eval, exec. rewrite (ListUsers_run_ok _ _ _ Hfit).
  cbn [fst snd reads].
  assert (Hnil : page_rows (db w) page pageSize = []).
  { unfold page_rows. rewrite drop_ge; [apply take_nil |]. rewrite rows_length. lia. }
  rewrite Hnil. cbn [imap length]. split; [reflexivity | lia].
Qed.

Lemma ListUsers_past_the_end_witness :
  eval (service.ListUsers theService 2 10) world_with_ada
    = Ok ([], Z.of_nat (size (sqlc.users (db world_with_ada))))
  /\ reads (exec (service.ListUsers theService 2 10) world_with_ada) = reads world_with_ada.
Proof.
  apply (ListUsers_past_the_end 2 10 world_with_ada); vm_compute; discriminate.
Defined.

Lemma rows_users (d d' : sqlc.DB) : sqlc.users d = sqlc.users d' -> sqlc.rows d = sqlc.rows d'.
Proof. unfold sqlc.rows. intros ->. reflexivity. Qed.

(** The ids of the pages 1 to [n], one after the other, are the first
    [n * pageSize] ids of the table in the order of [ORDER BY id]. *)
Lemma pages_concat (pageSize : Z) (w : World) (ws : nat -> World) (n : nat) :
  (forall i, sqlc.users (db (ws i)) = sqlc.users (db w)) ->
  (Z.of_nat n - 1) * clamp_pageSize pageSize <= 2 ^ 31 - 1 ->
  flat_map (fun i => page_ids (Z.of_nat i + 1) pageSize (ws i)) (seq 0 n)
  = take (n * Z.to_nat (clamp_pageSize pageSize)) (map sqlc.ID (sqlc.rows (db w))).
Proof.
  intros Hws. pose proof (clamp_pageSize_range pageSize) as Hs.
  induction n as [| n IH]; intros Hfit; [reflexivity |].
  rewrite seq_S, flat_map_app, IH by nia. cbn [flat_map Nat.add].
  rewrite app_nil_r.
  assert (Hp : clamp_page (Z.of_nat n + 1) = Z.of_nat n + 1).
  { unfold clamp_page. destruct (Z.ltb_spec (Z.of_nat n + 1) 1); lia. }
  rewrite page_ids_rows by (rewrite Hp; nia).
  unfold page_rows. rewrite Hp, (rows_users _ _ (Hws n)).
  change (map sqlc.ID) with (fmap (M := list) sqlc.ID).
  rewrite fmap_take, fmap_drop.
  replace (Z.to_nat ((Z.of_nat n + 1 - 1) * clamp_pageSize pageSize))
    with (n * Z.to_nat (clamp_pageSize pageSize))%nat by nia.
  rewrite take_take_drop. f_equal. lia.
Qed.

(** X13. Walking the pages: in a reachable world, when the pages 1 to [n]
    of one page size are asked for while the table stays the same (the
    clock and the statements received may differ from call to call) and
    [n * pageSize] reaches the number of rows, the ids of the pages, one
    after the other, are strictly ascending and are exactly the ids of the
    table: every user is shown once and only once. *)
Theorem ListUsers_pages_cover (pageSize : Z) (n : nat) (w : World) (ws : nat -> World) :
  reachable w ->
  (forall i, sqlc.users (db (ws i)) = sqlc.users (db w)) ->
  (Z.of_nat n - 1) * clamp_pageSize pageSize <= 2 ^ 31 - 1 ->
  Z.of_nat (size (sqlc.users (db w))) <= Z.of_nat n * clamp_pageSize pageSize ->
  let ids := flat_map (fun i => page_ids (Z.of_nat i + 1) pageSize (ws i)) (seq 0 n) in
  StronglySorted Z.lt ids
  /\ forall k, k ∈ ids <-> is_Some (sqlc.users (db w) !! k).
Proof.
  intros Hr Hws Hfit Hsize ids. unfold ids. clear ids.
  rewrite (pages_concat pageSize w ws n Hws Hfit).
  pose proof (clamp_pageSize_range pageSize) as Hs.
  rewrite take_ge by (rewrite length_map, rows_length; nia).
  split; [apply rows_ascending; exact Hr |].
  pose proof (reachable_db_ok w Hr) as [_ Hrows].
  assert (Hid : forall k u, sqlc.users (db w) !! k = Some u -> sqlc.ID u = k).
  { intros k u Hu. apply (Hrows k u Hu). }
  intros k. rewrite (rows_keys _ Hid). rewrite list_elem_of_fmap.
  split.
  - intros ([k' u] & -> & Hin). apply elem_of_map_to_list in Hin.
    cbn. rewrite Hin. eexists; reflexivity.
  - intros [u Hu]. exists (k, u). split; [reflexivity |].
    apply elem_of_map_to_list. exact Hu.
Qed.

(** The walk over [crowd], two users a page: the second page is asked for
    after the first one has been answered. *)
Example crowd_walk :
  flat_map (fun i => page_ids (Z.of_nat i + 1) 2 (crowd_after i)) (seq 0 2) = [1; 3; 4; 5]
  /\ db (crowd_after 1) <> db (crowd_after 0).
Proof. split; [vm_compute; reflexivity | vm_compute; discriminate]. Qed.

Lemma ListUsers_pages_cover_witness :
  let ids := flat_map (fun i => page_ids (Z.of_nat i + 1) 2 (crowd_after i)) (seq 0 2) in
  StronglySorted Z.lt ids
  /\ forall k, k ∈ ids <-> is_Some (sqlc.users (db crowd) !! k).
Proof.
  apply (ListUsers_pages_cover 2 2 crowd crowd_after).
  - exact reachable_crowd.
  - intros [| i]; vm_compute; reflexivity.
  - vm_compute. discriminate.
  - vm_compute. discriminate.
Defined.
(** ** The handlers *)

Lemma decimal_ge (s : string) :
  forall acc v, 0 <= acc -> decimal s acc = Some v -> acc <= v.
Proof.
  induction s as [| c s IH]; intros acc v Hacc H; cbn [decimal] in H.
  - injection H as <-. lia.
  - destruct (isDigit c) eqn:Hc; [| discriminate].
    apply isDigit_digit in Hc. apply IH in H; lia.
Qed.

(** The loop of [ParseUint] for 32 bits reads a run of digits as the
    number it denotes, up to [2^32-1]. *)
Lemma ParseUint_loop_decimal (s : string) :
  forall n, 0 <= n <= 2 ^ 32 - 1 ->
    match decimal s n with
    | Some v =>
        strconv.ParseUint_loop s n (2 ^ 32 - 1)
        = if v <=? 2 ^ 32 - 1 then (v, None) else (2 ^ 32 - 1, Some strconv.ErrRange)
    | None =>
        strconv.ParseUint_loop s n (2 ^ 32 - 1) = (0, Some strconv.ErrSyntax)
        \/ strconv.ParseUint_loop s n (2 ^ 32 - 1) = (2 ^ 32 - 1, Some strconv.ErrRange)
    end.
Proof.
  induction s as [| c s IH]; intros n Hn; cbn [decimal strconv.ParseUint_loop].
  - destruct (Z.leb_spec n (2 ^ 32 - 1)); [reflexivity | lia].
  - destruct (isDigit c) eqn:Hc; [| left; reflexivity].
    apply isDigit_digit in Hc.
    destruct (Z.leb_spec ((2 ^ 64 - 1) / 10 + 1) n) as [Hcut | _].
    { change ((2 ^ 64 - 1) / 10 + 1) with 1844674407370955162 in Hcut. lia. }
    cbn zeta. rewrite (Z.mod_small (n * 10 + digit c)) by lia.
    destruct (Z.ltb_spec (n * 10 + digit c) (n * 10)) as [Hlt | _]; [lia |].
    cbn [orb].
    destruct (Z.ltb_spec (2 ^ 32 - 1) (n * 10 + digit c)) as [Hbig | Hfit].
    + destruct (decimal s (n * 10 + digit c)) as [v |] eqn:Hv; [| right; reflexivity].
      apply decimal_ge in Hv; [| lia].
      destruct (Z.leb_spec v (2 ^ 32 - 1)); [lia | reflexivity].
    + apply IH. lia.
Qed.

Lemma ParseUint_unsigned_numeral (s : string) :
  match unsigned_numeral s with
  | Some v =>
      0 <= v
      /\ strconv.ParseUint s 32
         = if v <=? 2 ^ 32 - 1 then (v, None) else (2 ^ 32 - 1, Some strconv.ErrRange)
  | None =>
      strconv.ParseUint s 32 = (0, Some strconv.ErrSyntax)
      \/ strconv.ParseUint s 32 = (2 ^ 32 - 1, Some strconv.ErrRange)
  end.
Proof.
  destruct s as [| c s]; [left; reflexivity |].
  unfold unsigned_numeral, strconv.ParseUint.
  pose proof (ParseUint_loop_decimal (String c s) 0 ltac:(lia)) as H.
  destruct (decimal (String c s) 0) as [v |] eqn:Hv; [| exact H].
  split; [apply (decimal_ge (String c s) 0 v); [lia | exact Hv] | exact H].
Qed.

(** [ParseInt(s, 10, 32)] against the numeral [s] is: it returns the integer
    of a numeral that fits 32 bits, and an error for everything else. *)
Lemma ParseInt_id_of (s : string) :
  match id_of s with
  | Some n => strconv.ParseInt s 32 = (n, None) /\ in_int32 n
  | None => exists v e, strconv.ParseInt s 32 = (v, Some e)
  end.
Proof.
  destruct s as [| c rest]; [cbn; eauto |].
  unfold id_of, numeral, strconv.ParseInt.
  destruct (Ascii.eqb c "+") eqn:Hplus; [| destruct (Ascii.eqb c "-") eqn:Hminus].
  - pose proof (ParseUint_unsigned_numeral rest) as H.
    destruct (unsigned_numeral rest) as [v |].
    + destruct H as [Hv ->].
      destruct (Z.leb_spec v (2 ^ 32 - 1)) as [Hle | Hgt].
      * change (2 ^ (32 - 1)) with (2 ^ 31). cbn [negb andb].
        destruct (Z.leb_spec (2 ^ 31) v) as [Hc | Hc].
        -- destruct (Z.leb_spec v (2 ^ 31 - 1)); [lia |].
           rewrite andb_false_r. eauto.
        -- destruct (Z.leb_spec v (2 ^ 31 - 1)); [| lia].
           destruct (Z.leb_spec (- 2 ^ 31) v); [| lia].
           cbn [andb]. split; [reflexivity | unfold in_int32; lia].
      * destruct (Z.leb_spec v (2 ^ 31 - 1)); [lia |].
        rewrite andb_false_r. cbn. eauto.
    + destruct H as [-> | ->]; cbn; eauto.
  - pose proof (ParseUint_unsigned_numeral rest) as H.
    destruct (unsigned_numeral rest) as [v |]; cbn [fmap option_fmap option_map].
    + destruct H as [Hv ->].
      destruct (Z.leb_spec v (2 ^ 32 - 1)) as [Hle | Hgt].
      * change (2 ^ (32 - 1)) with (2 ^ 31). cbn [negb andb].
        destruct (Z.ltb_spec (2 ^ 31) v) as [Hc | Hc].
        -- destruct (Z.leb_spec (- 2 ^ 31) (- v)); [lia |]. cbn [andb]. eauto.
        -- destruct (Z.leb_spec (- 2 ^ 31) (- v)); [| lia].
           destruct (Z.leb_spec (- v) (2 ^ 31 - 1)); [| lia].
           cbn [andb]. split; [reflexivity | unfold in_int32; lia].
      * destruct (Z.leb_spec (- 2 ^ 31) (- v)); [lia |]. cbn. eauto.
    + destruct H as [-> | ->]; cbn; eauto.
  - pose proof (ParseUint_unsigned_numeral (String c rest)) as H.
    destruct (unsigned_numeral (String c rest)) as [v |].
    + destruct H as [Hv ->].
      destruct (Z.leb_spec v (2 ^ 32 - 1)) as [Hle | Hgt].
      * change (2 ^ (32 - 1)) with (2 ^ 31). cbn [negb andb].
        destruct (Z.leb_spec (2 ^ 31) v) as [Hc | Hc].
        -- destruct (Z.leb_spec v (2 ^ 31 - 1)); [lia |].
           rewrite andb_false_r. eauto.
        -- destruct (Z.leb_spec v (2 ^ 31 - 1)); [| lia].
           destruct (Z.leb_spec (- 2 ^ 31) v); [| lia].
           cbn [andb]. split; [reflexivity | unfold in_int32; lia].
      * destruct (Z.leb_spec v (2 ^ 31 - 1)); [lia |].
        rewrite andb_false_r. cbn. eauto.
    + destruct H as [-> | ->]; cbn; eauto.
Qed.

(** The handlers over the service, run in one step. *)
Lemma handler_GetUserByID_run (idParam : string) (w : World) :
  handler.GetUserByID theHandler idParam w =
    match id_of idParam with
    | None => (handler.mkResponse 400 (handler.ErrorMap "Invalid user ID"), w)
    | Some id =>
        let d := sqlc.receive (sqlc.StGetUserByID id) (db w) in
        match sqlc.users (db w) !! id with
        | Some u =>
            (handler.mkResponse 200
               (handler.UserJSON
                  (response_of u (Some (eval (models.CalculateAge (sqlc.Dob u)) w)))),
             mkWorld (clock w) (S (reads w)) d)
        | None =>
            (handler.mkResponse 404 (handler.ErrorMap "User not found"),
             mkWorld (clock w) (reads w) d)
        end
    end.
Proof.
  unfold handler.GetUserByID, theHandler, handler.NewUserHandler.
  cbn [handler.service].
  pose proof (ParseInt_id_of idParam) as H.
  destruct (id_of idParam) as [id |].
  - destruct H as [-> Hid]. rewrite (int32_small _ Hid).
    unfold bind. rewrite GetUserByID_run. cbn zeta.
    destruct (sqlc.users (db w) !! id); reflexivity.
  - destruct H as (v & e & ->). reflexivity.
Qed.

Lemma handler_DeleteUser_run (idParam : string) (w : World) :
  handler.DeleteUser theHandler idParam w =
    match id_of idParam with
    | None => (handler.mkResponse 400 (handler.ErrorMap "Invalid user ID"), w)
    | Some id =>
        match sqlc.next_exec_error (db w) with
        | Some err =>
            (if decide (err = ErrNoRows) then
               handler.mkResponse 404 (handler.ErrorMap "User not found")
             else if handler.is_user_not_found err then
               handler.mkResponse 404 (handler.ErrorMap "User not found")
             else handler.mkResponse 500 (handler.ErrorMap "Failed to delete user"),
             mkWorld (clock w) (reads w) (sqlc.receive (sqlc.StDeleteUser id) (db w)))
        | None =>
            (handler.mkResponse 204 handler.StatusOnly,
             mkWorld (clock w) (reads w)
               (sqlc.mkDB (delete id (sqlc.users (db w))) (sqlc.users_id_seq (db w))
                  (sqlc.current_timestamp (db w))
                  (sqlc.received (db w) ++ [sqlc.StDeleteUser id]) (sqlc.server (db w))))
        end
    end.
Proof.
  unfold handler.DeleteUser, theHandler, handler.NewUserHandler.
  cbn [handler.service].
  pose proof (ParseInt_id_of idParam) as H.
  destruct (id_of idParam) as [id |].
  - destruct H as [-> Hid]. rewrite (int32_small _ Hid).
    unfold bind. rewrite DeleteUser_run.
    destruct (sqlc.next_exec_error (db w)) as [err |]; [| reflexivity].
    destruct (decide (err = ErrNoRows)); [reflexivity |].
    destruct (handler.is_user_not_found err); reflexivity.
  - destruct H as (v & e & ->). reflexivity.
Qed.

(** X15. An id parameter that is not a decimal numeral of a 32-bit integer
    (an optional sign and one or more digits, of a value from [-2^31] to
    [2^31-1]) is answered with status 400 and "Invalid user ID" by
    [GetUserByID] and by [DeleteUser], and nothing is done: no statement is
    sent to the database and the clock is not read. *)
Theorem handler_invalid_id (idParam : string) (w : World) :
  id_of idParam = None ->
  handler.GetUserByID theHandler idParam w
    = (handler.mkResponse 400 (handler.ErrorMap "Invalid user ID"), w)
  /\ handler.DeleteUser theHandler idParam w
    = (handler.mkResponse 400 (handler.ErrorMap "Invalid user ID"), w).
Proof.
  intros H. rewrite handler_GetUserByID_run, handler_DeleteUser_run, H.
  split; reflexivity.
Qed.

Lemma handler_invalid_id_witness :
  handler.GetUserByID theHandler "2147483648" world_with_ada
    = (handler.mkResponse 400 (handler.ErrorMap "Invalid user ID"), world_with_ada)
  /\ handler.DeleteUser theHandler "2147483648" world_with_ada
    = (handler.mkResponse 400 (handler.ErrorMap "Invalid user ID"), world_with_ada).
Proof.
  apply (handler_invalid_id "2147483648" world_with_ada). vm_compute. reflexivity.
Defined.

(** X16. [GetUserByID] of the handler, with an id parameter that is a
    numeral of a 32-bit integer, in a reachable world: status 200 with the
    user of that id, its date printed and its age, when the table has a row
    of that id, and status 404 with "User not found" when it has none, as is
    the case for every id that is zero or negative. *)
Theorem handler_GetUserByID_answer (idParam : string) (id : Z) (w : World) :
  reachable w ->
  id_of idParam = Some id ->
  (forall u, sqlc.users (db w) !! id = Some u ->
     eval (handler.GetUserByID theHandler idParam) w
     = handler.mkResponse 200
         (handler.UserJSON
            {| models.ID := id; models.Name := sqlc.Name u;
               models.DOB := FormatDate (sqlc.Dob u);
               models.Age := Some (eval (models.CalculateAge (sqlc.Dob u)) w) |}))
  /\ (sqlc.users (db w) !! id = None ->
      eval (handler.GetUserByID theHandler idParam) w
      = handler.mkResponse 404 (handler.ErrorMap "User not found"))
  /\ (id <= 0 ->
      eval (handler.GetUserByID theHandler idParam) w
      = handler.mkResponse 404 (handler.ErrorMap "User not found")).
Proof.
  intros Hr Hid. unfold eval. rewrite handler_GetUserByID_run, Hid. cbn zeta.
  pose proof (reachable_db_ok w Hr) as [_ Hrows].
  split; [| split].
  - intros u Hu. rewrite Hu. cbn [fst]. unfold response_of.
    destruct (Hrows id u Hu) as [-> _]. reflexivity.
  - intros ->. reflexivity.
  - intros Hneg. destruct (sqlc.users (db w) !! id) as [u |] eqn:Hu; [| reflexivity].
    destruct (Hrows id u Hu) as (_ & Hk & _). lia.
Qed.

Lemma handler_GetUserByID_answer_witness :
  (forall u, sqlc.users (db world_with_ada) !! 1 = Some u ->
     eval (handler.GetUserByID theHandler "1") world_with_ada
     = handler.mkResponse 200
         (handler.UserJSON
            {| models.ID := 1; models.Name := sqlc.Name u;
               models.DOB := FormatDate (sqlc.Dob u);
               models.Age := Some (eval (models.CalculateAge (sqlc.Dob u)) world_with_ada) |}))
  /\ (sqlc.users (db world_with_ada) !! 1 = None ->
      eval (handler.GetUserByID theHandler "1") world_with_ada
      = handler.mkResponse 404 (handler.ErrorMap "User not found"))
  /\ (1 <= 0 ->
      eval (handler.GetUserByID theHandler "1") world_with_ada
      = handler.mkResponse 404 (handler.ErrorMap "User not found")).
Proof.
  apply (handler_GetUserByID_answer "1" 1 world_with_ada).
  - exact reachable_world_with_ada.
  - vm_compute. reflexivity.
Defined.



(** [int32] keeps the low 32 bits, of the wrapped [int] as of the exact
    value. *)
Lemma int32_congr (x y : Z) : x mod 2 ^ 32 = y mod 2 ^ 32 -> int32 x = int32 y.
Proof.
  intros H. unfold int32. f_equal.
  rewrite (Z.add_mod x), (Z.add_mod y) by lia. rewrite H. reflexivity.
Qed.

Lemma int_wrap_mod (z : Z) : int_wrap z mod 2 ^ 32 = z mod 2 ^ 32.
Proof.
  unfold int_wrap.
  rewrite (Z.mod_eq (z + 2 ^ 63) (2 ^ 64)) by lia.
  replace (z + 2 ^ 63 - 2 ^ 64 * ((z + 2 ^ 63) / 2 ^ 64) - 2 ^ 63)
    with (z + (- (2 ^ 32 * ((z + 2 ^ 63) / 2 ^ 64))) * 2 ^ 32) by lia.
  apply Z_mod_plus_full.
Qed.

Lemma offset_of_mod (page pageSize : Z) :
  offset_of page pageSize = int32 ((clamp_page page - 1) * clamp_pageSize pageSize).
Proof.
  unfold offset_of, int_mul, int_sub. apply int32_congr.
  rewrite int_wrap_mod.
  rewrite (Z.mul_mod (int_wrap _)), int_wrap_mod, <- Z.mul_mod by lia. reflexivity.
Qed.

(** X14. The page number wraps around: two pages whose offsets
    [(page-1)*pageSize] (after clamping) agree modulo [2^32] are answered
    alike, in the result and in the state left behind, since of the offset
    only [int32(offset)] reaches the query. *)
Theorem ListUsers_page_wraps_around (page page' pageSize : Z) (w : World) :
  ((clamp_page page - 1) * clamp_pageSize pageSize) mod 2 ^ 32
  = ((clamp_page page' - 1) * clamp_pageSize pageSize) mod 2 ^ 32 ->
  service.ListUsers theService page pageSize w
  = service.ListUsers theService page' pageSize w.
Proof.
  intros H. rewrite !ListUsers_run.
  rewrite (offset_of_mod page), (offset_of_mod page'), (int32_congr _ _ H). reflexivity.
Qed.

Lemma ListUsers_page_wraps_around_witness :
  service.ListUsers theService 268435457 16 world_with_ada
  = service.ListUsers theService 1 16 world_with_ada.
Proof.
  apply (ListUsers_page_wraps_around 268435457 1 16 world_with_ada).
  vm_compute. reflexivity.
Defined.

Lemma handler_ListUsers_run (page pageSize : Z) (w : World) :
  handler.ListUsers theHandler page pageSize w =
    if offset_of page pageSize <? 0 then
      (handler.mkResponse 500 (handler.ErrorMap "Failed to list users"),
       mkWorld (clock w) (reads w)
         (sqlc.receive (sqlc.StListUsers (limit_of pageSize) (offset_of page pageSize))
            (db w)))
    else
      let users := take (Z.to_nat (limit_of pageSize))
                     (drop (Z.to_nat (offset_of page pageSize)) (sqlc.rows (db w))) in
      (handler.mkResponse 200
         (handler.UsersJSON
            (imap (fun i u => response_of u (Some (age_at_reading w i (sqlc.Dob u)))) users)),
       mkWorld (clock w) (reads w + length users)
         (sqlc.receive sqlc.StCountUsers
            (sqlc.receive (sqlc.StListUsers (limit_of pageSize) (offset_of page pageSize))
               (db w)))).
Proof.
  unfold handler.ListUsers, theHandler, handler.NewUserHandler.
  cbn [handler.service]. unfold bind. rewrite ListUsers_run.
  destruct (ListUsers_statement page pageSize w) as (_ & _ & Hl & _).
  unfold sqlc.ListUsers. cbn [sqlc.lp_Limit sqlc.lp_Offset].
  destruct (offset_of page pageSize <? 0); [reflexivity |].
  destruct (Z.ltb_spec (limit_of pageSize) 0); [lia |]. reflexivity.
Qed.

(** X18. [ListUsers] of the handler answers with status 500 and "Failed to
    list users" when the offset sent to the database, [int32(offset)], is
    negative, and otherwise with status 200 and an array of at most
    [pageSize] users, never more than 100; the total is not part of the
    answer. The offset sent is not negative as long as [(page-1)*pageSize]
    (after clamping) fits 32 bits. The table is left as it was. *)
Theorem handler_ListUsers_status (page pageSize : Z) (w : World) :
  (offset_of page pageSize < 0 ->
     eval (handler.ListUsers theHandler page pageSize) w
     = handler.mkResponse 500 (handler.ErrorMap "Failed to list users"))
  /\ (0 <= offset_of page pageSize ->
      exists responses,
        eval (handler.ListUsers theHandler page pageSize) w
        = handler.mkResponse 200 (handler.UsersJSON responses)
        /\ Z.of_nat (length responses) <= clamp_pageSize pageSize <= 100)
  /\ ((clamp_page page - 1) * clamp_pageSize pageSize <= 2 ^ 31 - 1 ->
      0 <= offset_of page pageSize)
  /\ sqlc.users (db (exec (handler.ListUsers theHandler page pageSize) w))
     = sqlc.users (db w).
Proof.
  unfold eval, exec. rewrite handler_ListUsers_run.
  destruct (ListUsers_statement page pageSize w) as (_ & Hl & Hlr & Ho).
  split; [| split; [| split]].
  - intros Hneg. destruct (Z.ltb_spec (offset_of page pageSize) 0); [reflexivity | lia].
  - intros Hpos. destruct (Z.ltb_spec (offset_of page pageSize) 0); [lia |].
    cbn zeta. cbn [fst]. eexists. split; [reflexivity |].
    rewrite length_imap, length_take. lia.
  - intros Hfit. apply Ho. exact Hfit.
  - destruct (offset_of page pageSize <? 0); reflexivity.
Qed.

Lemma handler_ListUsers_status_witness :
  eval (handler.ListUsers theHandler 214748366 10) world_with_ada
  = handler.mkResponse 500 (handler.ErrorMap "Failed to list users")
  /\ exists responses,
       eval (handler.ListUsers theHandler 1 10) world_with_ada
       = handler.mkResponse 200 (handler.UsersJSON responses)
       /\ Z.of_nat (length responses) <= clamp_pageSize 10 <= 100.
Proof.
  split.
  - apply (proj1 (handler_ListUsers_status 214748366 10 world_with_ada)).
    vm_compute. reflexivity.
  - apply (proj1 (proj2 (handler_ListUsers_status 1 10 world_with_ada))).
    vm_compute. discriminate.
Defined.

(** ** Rows of a reachable table *)

(** X4. In every world the service can reach, a row of the table is stored
    under its own id; the id lies between 1 and the value of the id
    sequence, which does not exceed [2^31-1]; and the date of birth is a
    date of the calendar with a year from 0 to 9999, at midnight. *)
Theorem stored_rows_well_formed (w : World) (k : Z) (u : sqlc.User) :
  reachable w ->
  sqlc.users (db w) !! k = Some u ->
  sqlc.ID u = k
  /\ 1 <= k <= sqlc.users_id_seq (db w)
  /\ sqlc.users_id_seq (db w) <= 2 ^ 31 - 1
  /\ valid_date (Year (sqlc.Dob u)) (Month (sqlc.Dob u)) (Day (sqlc.Dob u))
  /\ 0 <= Year (sqlc.Dob u) <= 9999
  /\ DayNanos (sqlc.Dob u) = 0.
Proof.
  intros Hr Hu. pose proof (reachable_db_ok w Hr) as [Hseq Hrows].
  destruct (Hrows k u Hu) as (Hid & Hk & [Hv _] & Hy & Hn).
  split; [exact Hid | split; [exact Hk | split; [lia |]]].
  split; [exact Hv | split; [exact Hy | exact Hn]].
Qed.

Lemma stored_rows_well_formed_witness :
  sqlc.ID ada = 1
  /\ 1 <= 1 <= sqlc.users_id_seq (db world_with_ada)
  /\ sqlc.users_id_seq (db world_with_ada) <= 2 ^ 31 - 1
  /\ valid_date (Year (sqlc.Dob ada)) (Month (sqlc.Dob ada)) (Day (sqlc.Dob ada))
  /\ 0 <= Year (sqlc.Dob ada) <= 9999
  /\ DayNanos (sqlc.Dob ada) = 0.
Proof.
  apply (stored_rows_well_formed world_with_ada 1 ada).
  - exact reachable_world_with_ada.
  - vm_compute. reflexivity.
Defined.
